(** * Pollen history collector: a shallow embedding of [src/app.py]

    The program is one unending control loop ([Collector.run]) that once a
    day sweeps every (area, allergy type) pair, fetches a map image over
    HTTP ([PollenInfoClient.get_data]), stamps a label on it
    ([ImageCollection.draw_on_image]) and stores it in a date-partitioned
    tree ([ImageCollection.save_image]).

    Modelling choices.
    - Python exceptions are values of [exn]; a computation is a function
      from the state of the outside world to an outcome (a value or a raised
      exception) and the next state: effects performed before a [raise]
      persist, exactly as in Python.
    - Everything outside the repository (the HTTP client, the clock, the
      event loop's [asyncio.sleep], Pillow's decoder, font metrics and PNG
      encoder, the file system's failure modes) is an oracle of the record
      [Env]; theorems quantify over every environment.
    - [time.time()] returns a binary64 float. The model uses rationals [Q]:
      every finite float is a rational, and the claims below depend only on
      the sign and on the exact value of [86400 - d] at inputs where the
      float subtraction is exact.
    - [assert] is modelled with assertions enabled (the interpreter's
      default, no [-O]). *)

From Stdlib Require Import ZArith QArith Qminmax String Ascii List DecimalString Lia Lqa.
From Stdlib Require Import DecimalPos DecimalZ.
From stdpp Require Import gmap strings list.

Local Open Scope Z_scope.
Local Open Scope string_scope.

(** ** Enumerations ([Area], [AllergyType]) *)

(** A Python [Enum] class: every member has a [name] (the identifier) and a
    [value]; [members] is [list(E)], in definition order. *)
Class PyEnum (E : Type) := {
  name : E -> string;
  value : E -> string;
  members : list E
}.

Inductive Area :=
| Austria | France | Germany | GreatBritain | Italy | Latvia | Lithuania
| Poland | Spain | Sweden | Switzerland | Turkey | Ukrain.

Inductive AllergyType :=
| AllergyRisk | Mugwort | Birch | Alder | Grasses | Olive | Ragweed.

#[global] Instance Area_enum : PyEnum Area := {|
  name a := match a with
            | Austria => "Austria" | France => "France" | Germany => "Germany"
            | GreatBritain => "GreatBritain" | Italy => "Italy"
            | Latvia => "Latvia" | Lithuania => "Lithuania"
            | Poland => "Poland" | Spain => "Spain" | Sweden => "Sweden"
            | Switzerland => "Switzerland" | Turkey => "Turkey"
            | Ukrain => "Ukrain"
            end;
  value a := match a with
             | Austria => "at" | France => "fr" | Germany => "de"
             | GreatBritain => "gb" | Italy => "it" | Latvia => "lv"
             | Lithuania => "lt" | Poland => "pl" | Spain => "es"
             | Sweden => "se" | Switzerland => "ch" | Turkey => "tr"
             | Ukrain => "ua"
             end;
  members := [Austria; France; Germany; GreatBritain; Italy; Latvia;
              Lithuania; Poland; Spain; Sweden; Switzerland; Turkey; Ukrain]
|}.

#[global] Instance AllergyType_enum : PyEnum AllergyType := {|
  name t := match t with
            | AllergyRisk => "AllergyRisk" | Mugwort => "Mugwort"
            | Birch => "Birch" | Alder => "Alder" | Grasses => "Grasses"
            | Olive => "Olive" | Ragweed => "Ragweed"
            end;
  value t := match t with
             | AllergyRisk => "ar" | Mugwort => "ARTE" | Birch => "BETU"
             | Alder => "ALNU" | Grasses => "POAC" | Olive => "OLEA"
             | Ragweed => "AMBR"
             end;
  members := [AllergyRisk; Mugwort; Birch; Alder; Grasses; Olive; Ragweed]
|}.

(** [str(member)] of a plain [Enum]: the class name, a dot, the member name. *)
Definition str_AllergyType (t : AllergyType) : string := "AllergyType." ++ name t.
Definition str_Area (a : Area) : string := "Area." ++ name a.

(** ** Exceptions *)

(** The classes that matter to the two [except Exception] guards.  The last
    three derive from [BaseException] only. *)
Inductive exn_class :=
| AssertionError | HTTPError | UnidentifiedImageError | OSError | RuntimeError
| KeyboardInterrupt | CancelledError | SystemExit.

Record exn := Exn { exn_class_of : exn_class; exn_args : string }.

(** [isinstance(e, Exception)] *)
Definition isinstance_Exception (e : exn) : bool :=
  match exn_class_of e with
  | KeyboardInterrupt | CancelledError | SystemExit => false
  | _ => true
  end.

(** [str(e)], as the f-strings of the two handlers format it. *)
Definition str_exn (e : exn) : string := exn_args e.

(** ** Values exchanged with the outside world *)

Definition bytes := list Byte.byte.

(** A value of the [params] dict of the GET request. *)
Inductive pyval :=
| PyStr (s : string)
| PyInt (z : Z).

(** [httpx.Response]: only the two attributes that could matter. *)
Record Response := { status_code : Z; content : bytes }.

(** [datetime.datetime]: the date, which is all the program reads, and the
    time of day. *)
Record datetime := {
  year : Z; month : Z; day : Z;
  hour : Z; minute : Z; second : Z
}.

(** [pathlib.Path]: the root ("" for a relative path, "/" for an absolute
    one) and the names below it. *)
Record Path := { root : string; names : list string }.

(** [p / s] for a single relative name [s] (all the program ever appends). *)
Definition truediv (p : Path) (s : string) : Path :=
  {| root := root p; names := names p ++ [s] |}.

(** [str(p)] *)
Definition fspath (p : Path) : string :=
  match names p with
  | [] => if String.eqb (root p) "" then "." else root p
  | _ => root p ++ String.concat "/" (names p)
  end.

Definition RGBA := (Z * Z * Z * Z)%type.

(** The Pillow drawing calls the annotator issues, with their arguments. *)
Inductive draw_op :=
| rounded_rectangle (xy : Z * Z * Z * Z) (radius : Z) (fill : RGBA)
| alpha_composite (with_itself : bool)
| draw_text (xy : Z * Z) (text : string) (fill : RGBA).

(** An image in memory: the mode it was converted to, its size, the bytes
    it was decoded from and the drawing calls applied since, oldest first. *)
Record Image := {
  mode : string;
  size : Z * Z;
  decoded_from : bytes;
  drawn : list draw_op
}.

Inductive level := INFO | WARNING.

(** Every interaction with the outside world, as it is issued. *)
Inductive event :=
| EvGet (url : string) (params : list (string * pyval))
| EvSleep (delay : Q)
| EvLog (lvl : level) (msg : string)
| EvTime
| EvNow
| EvMkdir (p : string)
| EvOpen (p : string)
| EvWrite (p : string) (data : bytes).

#[global] Instance event_is_EvTime (ev : event) : Decision (ev = EvTime).
Proof. destruct ev; (left; reflexivity) || (right; discriminate). Defined.

(** The state of the outside world: the files on storage, by path, and the
    interactions so far, oldest first. *)
Record World := { fs : gmap string bytes; trace : list event }.

Definition emit (e : event) (w : World) : World :=
  {| fs := fs w; trace := trace w ++ [e] |}.

Definition set_file (p : string) (data : bytes) (w : World) : World :=
  {| fs := <[p := data]> (fs w); trace := trace w |}.

(** The behaviour of everything outside the repository.  An oracle sees the
    world at the moment of the call, so its answers may change over time. *)
Record Env := {
  (** [httpx.AsyncClient.get]: raises on a transport failure, otherwise
      returns the response whatever its status *)
  http_get : World -> string -> list (string * pyval) -> exn + Response;
  (** [time.time()] *)
  time_time : World -> Q;
  (** [datetime.datetime.now()] *)
  datetime_now : World -> datetime;
  (** [asyncio.sleep]: [None] when the pause completes *)
  asyncio_sleep : World -> Q -> option exn;
  (** [Image.open(...).convert("RGBA")]: the size of the decoded image *)
  Image_open : bytes -> exn + (Z * Z);
  (** [ImageFont.load_default().getbbox] *)
  font_getbbox : string -> Z * Z * Z * Z;
  (** [image.save(output, format="PNG")] followed by [output.getvalue()] *)
  Image_save : Image -> bytes;
  (** [Path.mkdir(parents=True, exist_ok=True)] *)
  Path_mkdir : World -> Path -> option exn;
  (** [aiofiles.open(file, "wb")] *)
  aiofiles_open : World -> Path -> option exn;
  (** [f.write(image_bytes)] *)
  file_write : World -> Path -> bytes -> option exn
}.

(** ** Computations that may raise *)

Inductive outcome (A : Type) :=
| Ret (a : A)
| Raise (e : exn).
Arguments Ret {A} a.
Arguments Raise {A} e.

Definition M (A : Type) : Type := World -> outcome A * World.

Definition ret {A} (a : A) : M A := fun w => (Ret a, w).

Definition bind {A B} (m : M A) (k : A -> M B) : M B :=
  fun w => match m w with
           | (Ret a, w') => k a w'
           | (Raise e, w') => (Raise e, w')
           end.

Definition raise {A} (e : exn) : M A := fun w => (Raise e, w).

Declare Scope py_scope.
Delimit Scope py_scope with py.
Notation "x <- m ;; k" := (bind m (fun x => k))
  (at level 100, m at next level, right associativity) : py_scope.
Notation "m ;; k" := (bind m (fun _ => k))
  (at level 100, right associativity) : py_scope.

(** [try: body  except Exception as e: handler(e)] *)
Definition try_except_Exception {A} (body : M A) (handler : exn -> M A) : M A :=
  fun w => match body w with
           | (Ret a, w') => (Ret a, w')
           | (Raise e, w') =>
               if isinstance_Exception e then handler e w' else (Raise e, w')
           end.

(** [for x in xs: body(x)] *)
Fixpoint for_each {A} (xs : list A) (body : A -> M unit) : M unit :=
  match xs with
  | [] => ret tt
  | x :: xs' => (body x ;; for_each xs' body)%py
  end.

(** [assert cond, msg] *)
Definition assert_ (cond : bool) (msg : string) : M unit :=
  if cond then ret tt else raise (Exn AssertionError msg).

(** A synchronous call that returns or raises without touching the world. *)
Definition lift {A} (r : exn + A) : M A :=
  match r with
  | inl e => raise e
  | inr a => ret a
  end.

(** ** Formatting integers and dates *)

(** [str(n)] for an [int]: decimal, a minus sign for negatives, no padding. *)
Definition str (n : Z) : string := NilZero.string_of_int (Z.to_int n).

(** [s.zfill(width)] for a string without sign: zeros on the left up to
    [width] characters, nothing cut. *)
Fixpoint zeros (k : nat) : string :=
  match k with
  | O => ""
  | S k' => String "0" (zeros k')
  end.

Definition zfill (width : nat) (s : string) : string :=
  zeros (width - String.length s) ++ s.

(** [now.strftime('%Y-%m-%d')].  CPython hands the directives to the C
    library: the month and the day of the month are written on two digits,
    zero-padded; the year is written by glibc without padding (year 999
    gives "999-03-05"), while other C libraries pad it to four digits.
    From year 1000 on the two agree, and the properties of the label are
    stated for those years. *)
Definition strftime_Y_m_d (now : datetime) : string :=
  str (year now) ++ "-" ++ zfill 2 (str (month now)) ++ "-"
  ++ zfill 2 (str (day now)).

(** The decimal digit of [n] at position [k] (0 for the units). *)
Definition digit (n : Z) (k : nat) : ascii :=
  ascii_of_nat (48 + Z.to_nat ((n / 10 ^ Z.of_nat k) mod 10)).

(** The format YYYY-MM-DD spelled out digit by digit: what the label is
    required to start with. *)
Definition YYYY_MM_DD (y m d : Z) : string :=
  String (digit y 3) (String (digit y 2) (String (digit y 1) (String (digit y 0)
  (String "-" (String (digit m 1) (String (digit m 0)
  (String "-" (String (digit d 1) (String (digit d 0) EmptyString))))))))).

(** The dates with a year of four digits, which include every reading of
    a present-day clock (the day is not checked against the length of the
    month). *)
Definition valid_date (now : datetime) : Prop :=
  1000 <= year now <= 9999 /\ 1 <= month now <= 12 /\ 1 <= day now <= 31.

(** ** The program *)

Section Program.

Context (env : Env).

Local Open Scope py_scope.

(** *** Primitive interactions *)

(** [_LOGGER.info] and [_LOGGER.warning]: the logger's level is INFO, so
    both are emitted. *)
Definition log (lvl : level) (msg : string) : M unit :=
  fun w => (Ret tt, emit (EvLog lvl msg) w).

(** [await asyncio.sleep(delay)] *)
Definition sleep (delay : Q) : M unit :=
  fun w => match asyncio_sleep env w delay with
           | None => (Ret tt, emit (EvSleep delay) w)
           | Some e => (Raise e, emit (EvSleep delay) w)
           end.

(** [time.time()] *)
Definition time : M Q :=
  fun w => (Ret (time_time env w), emit EvTime w).

(** [datetime.datetime.now()] *)
Definition now_ : M datetime :=
  fun w => (Ret (datetime_now env w), emit EvNow w).

(** [await self.client.get(url, params=params)]: the request is issued,
    then the client raises or returns its response. *)
Definition client_get (url : string) (params : list (string * pyval)) : M Response :=
  fun w => match http_get env w url params with
           | inl e => (Raise e, emit (EvGet url params) w)
           | inr r => (Ret r, emit (EvGet url params) w)
           end.

(** [folder.mkdir(parents=True, exist_ok=True)] *)
Definition mkdir (p : Path) : M unit :=
  fun w => match Path_mkdir env w p with
           | None => (Ret tt, emit (EvMkdir (fspath p)) w)
           | Some e => (Raise e, emit (EvMkdir (fspath p)) w)
           end.

(** [async with aiofiles.open(file, "wb") as f]: on success the file exists
    and is empty. *)
Definition open_wb (p : Path) : M unit :=
  fun w => match aiofiles_open env w p with
           | None => (Ret tt, set_file (fspath p) [] (emit (EvOpen (fspath p)) w))
           | Some e => (Raise e, emit (EvOpen (fspath p)) w)
           end.

(** [await f.write(data)] on the file just opened: on success the file
    holds [data]; on failure it is left as the open left it. *)
Definition write (p : Path) (data : bytes) : M unit :=
  fun w => match file_write env w p data with
           | None => (Ret tt, set_file (fspath p) data (emit (EvWrite (fspath p) data) w))
           | Some e => (Raise e, emit (EvWrite (fspath p) data) w)
           end.

(** *** [PollenInfoClient.get_data] *)

Definition get_data (type : AllergyType) (area : Area) (day : Z) (lang : string)
  : M bytes :=
  assert_ ((0 <=? day)%Z && (day <=? 2)%Z) "only day between is supported" ;;
  result <- client_get "/dex/rest/geo/map"
              [("type", PyStr (value type)); ("area", PyStr (value area));
               ("day", PyInt day); ("lang", PyStr lang)] ;;
  ret (content result).

(** *** [ImageCollection] *)

Record ImageCollection := { base_path : Path }.

(** The label [draw_on_image] composes (line 73). *)
Definition label (type : AllergyType) (now : datetime) : string :=
  strftime_Y_m_d now ++ " " ++ name type.

(** The image [draw_on_image] hands to [image.save]: the decoded image with
    the plate, the self-composite and the text drawn on it, in that order
    (lines 71-92). *)
Definition stamped (type : AllergyType) (now : datetime) (content : bytes)
  (sz : Z * Z) : Image :=
  let text := label type now in
  let '(x, y) := (10, 10) in
  let '(b0, b1, b2, b3) := font_getbbox env text in
  let padding := 4 in
  {| mode := "RGBA"; size := sz; decoded_from := content;
     drawn :=
       [ rounded_rectangle
           (x - b0 - padding, y - b1 - padding, x + b2 + padding, y + b3 + padding)
           3 (255, 255, 255, 1);
         alpha_composite true;
         draw_text (x, y) text (255, 255, 255, 255) ] |}.

Definition draw_on_image (type : AllergyType) (now : datetime) (content : bytes)
  : exn + bytes :=
  match Image_open env content with
  | inl e => inl e
  | inr sz => inr (Image_save env (stamped type now content sz))
  end.

(** The file [save_image] writes for a capture moment (lines 102 and 104). *)
Definition folder_of (self : ImageCollection) (type : AllergyType) (area : Area)
  (now : datetime) : Path :=
  truediv (truediv (truediv (truediv (base_path self) (name type)) (name area))
             (str (year now))) (str (month now)).

Definition file_of (self : ImageCollection) (type : AllergyType) (area : Area)
  (now : datetime) : Path :=
  truediv (folder_of self type area now) (str (day now) ++ ".png").

Definition save_image (self : ImageCollection) (content : bytes)
  (type : AllergyType) (area : Area) : M unit :=
  now <- now_ ;;
  let folder := folder_of self type area now in
  mkdir folder ;;
  let file := file_of self type area now in
  image_bytes <- lift (draw_on_image type now content) ;;
  open_wb file ;;
  write file image_bytes.

(** *** [Collector] *)

Record Collector := {
  image_collection : ImageCollection;
  areas : list Area;
  types : list AllergyType
}.

(** The body of the [try] of [_run_step] for one pair (lines 140-143);
    [day] and [lang] take their defaults. *)
Definition step (self : Collector) (type : AllergyType) (area : Area) : M unit :=
  content <- get_data type area 0 "en" ;;
  save_image (image_collection self) content type area.

(** One turn of the inner loop: the guarded step, then the 5 second pause
    (lines 139-147). *)
Definition guarded_step (self : Collector) (area : Area) (type : AllergyType)
  : M unit :=
  try_except_Exception (step self type area)
    (fun e => log WARNING ("Got error while running for type='"
                           ++ str_AllergyType type ++ "' and area='"
                           ++ str_Area area ++ "': " ++ str_exn e)) ;;
  sleep (inject_Z 5).

Definition _run_step (self : Collector) : M Q :=
  cur_time <- time ;;
  for_each (areas self) (fun area =>
    for_each (types self) (fun type => guarded_step self area type)) ;;
  t <- time ;;
  ret (t - cur_time)%Q.

(** The argument of the daily pause (line 133). *)
Definition daily_delay (execution_time : Q) : Q :=
  (inject_Z (24 * 60 * 60) - execution_time)%Q.

(** One turn of [while True] in [run] (lines 125-133).  The handler ends in
    [continue], which skips the daily pause: [None] stands for that. *)
Definition run_iteration (self : Collector) : M unit :=
  r <- try_except_Exception
         (execution_time <- _run_step self ;;
          log INFO "Successfully fetched todays data" ;;
          ret (Some execution_time))
         (fun e => log WARNING ("Got error while executing step: " ++ str_exn e) ;;
                   sleep (inject_Z 60) ;;
                   ret None) ;;
  match r with
  | Some execution_time => sleep (daily_delay execution_time)
  | None => ret tt
  end.

(** Where the loop stands after some turns: still looping, or left by an
    exception that nothing caught ([while True] has no other exit). *)
Inductive loop_state :=
| Looping (w : World)
| Exited (e : exn) (w : World).

(** The first [n] turns of [while True: body]. *)
Fixpoint while_True (n : nat) (body : M unit) (w : World) : loop_state :=
  match n with
  | O => Looping w
  | S n' => match body w with
            | (Ret _, w') => while_True n' body w'
            | (Raise e, w') => Exited e w'
            end
  end.

(** [Collector.run], observed for its first [n] sweeps. *)
Definition run (self : Collector) (n : nat) (w : World) : loop_state :=
  while_True n (run_iteration self) (emit (EvLog INFO "Started") w).

End Program.

(** ** What the specification asks of the daily pause *)

(** [nextSleep(elapsed) = max(0, 86400 - elapsed)], as the design notes
    word it. *)
Definition nextSleep (elapsed : Q) : Q :=
  Qmax 0 (inject_Z 86400 - elapsed).

(** ** Observations on worlds and images *)

(** The GET requests of a trace, oldest first. *)
Definition gets (tr : list event) : list (string * list (string * pyval)) :=
  omap (fun ev => match ev with EvGet url ps => Some (url, ps) | _ => None end) tr.

(** The pauses of a trace, oldest first. *)
Definition pauses (tr : list event) : list Q :=
  omap (fun ev => match ev with EvSleep q => Some q | _ => None end) tr.

(** The request the sweep issues for a pair. *)
Definition request_of (p : Area * AllergyType) : string * list (string * pyval) :=
  ("/dex/rest/geo/map",
   [("type", PyStr (value (snd p))); ("area", PyStr (value (fst p)));
    ("day", PyInt 0); ("lang", PyStr "en")]).

(** The pairs of a sweep, in the order the two loops visit them. *)
Definition pairs (self : Collector) : list (Area * AllergyType) :=
  area ← areas self; type ← types self; [(area, type)].

(** One turn of the sweep, and the sweep as one loop over the pairs. *)
Definition turn (env : Env) (self : Collector) (p : Area * AllergyType) : M unit :=
  guarded_step env self (fst p) (snd p).

Definition sweep (env : Env) (self : Collector) : M unit :=
  for_each (pairs self) (turn env self).

(** The line the per-pair handler logs (line 145). *)
Definition pair_warning (type : AllergyType) (area : Area) (e : exn) : string :=
  "Got error while running for type='" ++ str_AllergyType type ++ "' and area='"
  ++ str_Area area ++ "': " ++ str_exn e.

(** A computation that raises nothing but instances of [Exception]. *)
Definition raises_only_Exception {A} (m : M A) : Prop :=
  forall w e w', m w = (Raise e, w') -> isinstance_Exception e = true.

(** A computation whose first interactions are [evs], whatever it does
    next and however it ends. *)
Definition starts_with {A} (evs : list event) (m : M A) : Prop :=
  forall w, exists rest, trace (snd (m w)) = (trace w ++ evs ++ rest)%list.

(** The texts drawn on an image, and the fills of its plates. *)
Definition texts_drawn (img : Image) : list string :=
  omap (fun op => match op with draw_text _ s _ => Some s | _ => None end) (drawn img).

Definition plate_fills (img : Image) : list RGBA :=
  omap (fun op => match op with rounded_rectangle _ _ c => Some c | _ => None end)
    (drawn img).

(** The alpha channel of a colour, 0 (transparent) to 255 (opaque). *)
Definition alpha (c : RGBA) : Z := snd c.

(** Every exception the fetch, the annotation and the store can meet in the
    environment derives from [Exception]: failures, as opposed to
    cancellation and interpreter exit. *)
Record step_failures_only (env : Env) : Prop := {
  http_get_exn : forall w url ps e,
    http_get env w url ps = inl e -> isinstance_Exception e = true;
  Image_open_exn : forall c e,
    Image_open env c = inl e -> isinstance_Exception e = true;
  Path_mkdir_exn : forall w p e,
    Path_mkdir env w p = Some e -> isinstance_Exception e = true;
  aiofiles_open_exn : forall w p e,
    aiofiles_open env w p = Some e -> isinstance_Exception e = true;
  file_write_exn : forall w p data e,
    file_write env w p data = Some e -> isinstance_Exception e = true
}.

(** The same of the exceptions a pause can raise. *)
Definition pause_failures_only (env : Env) : Prop :=
  forall w q e, asyncio_sleep env w q = Some e -> isinstance_Exception e = true.

(** The pause between two pairs always completes. *)
Definition courtesy_pause_returns (env : Env) : Prop :=
  forall w, asyncio_sleep env w (inject_Z 5) = None.

(** The last interaction of a world is one of the two log lines [run]
    writes just before it pauses. *)
Definition at_run_pause (w : World) : Prop :=
  last (trace w) = Some (EvLog INFO "Successfully fetched todays data")
  \/ exists e, last (trace w)
               = Some (EvLog WARNING ("Got error while executing step: " ++ str_exn e)).

(** The pauses taken by [run] itself (the 60 second cooldown and the daily
    pause) always complete. *)
Definition run_pauses_return (env : Env) : Prop :=
  forall w q, at_run_pause w -> asyncio_sleep env w q = None.

(** ** Concrete environments and inputs, for the examples *)

Definition sample_body : bytes := [Byte.x89; Byte.x50; Byte.x4e; Byte.x47].
Definition other_body : bytes := [Byte.x89; Byte.x50; Byte.x4e; Byte.x47; Byte.x0d].

Definition march_5 : datetime :=
  {| year := 2024; month := 3; day := 5; hour := 7; minute := 30; second := 0 |}.

Definition empty_world : World := {| fs := ∅; trace := [] |}.

(** An environment in which everything succeeds: every request is answered
    200 with [sample_body], the clock counts the interactions so far, and
    the encoder returns the decoded bytes followed by one byte per drawing
    call. *)
Definition calm : Env := {|
  http_get := fun _ _ _ => inr {| status_code := 200; content := sample_body |};
  time_time := fun w => inject_Z (Z.of_nat (length (trace w)));
  datetime_now := fun _ => march_5;
  asyncio_sleep := fun _ _ => None;
  Image_open := fun _ => inr (4, 4);
  font_getbbox := fun s => (0, 3, 6 * Z.of_nat (String.length s), 11);
  Image_save := fun img => (decoded_from img ++ map (fun _ => Byte.x00) (drawn img))%list;
  Path_mkdir := fun _ _ => None;
  aiofiles_open := fun _ _ => None;
  file_write := fun _ _ _ => None
|}.

(** An environment with another HTTP client, clock or event loop. *)
Definition with_http (h : World -> string -> list (string * pyval) -> exn + Response)
  (env : Env) : Env :=
  {| http_get := h; time_time := time_time env; datetime_now := datetime_now env;
     asyncio_sleep := asyncio_sleep env; Image_open := Image_open env;
     font_getbbox := font_getbbox env; Image_save := Image_save env;
     Path_mkdir := Path_mkdir env; aiofiles_open := aiofiles_open env;
     file_write := file_write env |}.

Definition with_clock (c : World -> Q) (env : Env) : Env :=
  {| http_get := http_get env; time_time := c; datetime_now := datetime_now env;
     asyncio_sleep := asyncio_sleep env; Image_open := Image_open env;
     font_getbbox := font_getbbox env; Image_save := Image_save env;
     Path_mkdir := Path_mkdir env; aiofiles_open := aiofiles_open env;
     file_write := file_write env |}.

Definition with_sleep (s : World -> Q -> option exn) (env : Env) : Env :=
  {| http_get := http_get env; time_time := time_time env;
     datetime_now := datetime_now env;
     asyncio_sleep := s; Image_open := Image_open env;
     font_getbbox := font_getbbox env; Image_save := Image_save env;
     Path_mkdir := Path_mkdir env; aiofiles_open := aiofiles_open env;
     file_write := file_write env |}.

(** The server answers 404 with a body. *)
Definition not_found : Env :=
  with_http (fun _ _ _ => inr {| status_code := 404; content := other_body |}) calm.

(** The area code of a request of [get_data]. *)
Definition area_param (ps : list (string * pyval)) : string :=
  match ps with
  | [_; (_, PyStr a); _; _] => a
  | _ => ""
  end.

(** Requests for Germany fail in transport; the others succeed. *)
Definition germany_down : Env :=
  with_http (fun _ _ ps =>
    if String.eqb (area_param ps) "de"
    then inl (Exn HTTPError "connection refused")
    else inr {| status_code := 200; content := sample_body |}) calm.

(** The HTTP client trips over an assertion of its own during the fetch. *)
Definition client_asserts : Env :=
  with_http (fun _ _ _ => inl (Exn AssertionError "unexpected state")) calm.

(** The task is cancelled while it awaits the response. *)
Definition cancelled : Env :=
  with_http (fun _ _ _ => inl (Exn CancelledError "")) calm.

(** A clock that jumps 86401 seconds each time it is read: every sweep
    lasts that long. *)
Definition slow : Env :=
  with_clock (fun w =>
    inject_Z (86401 * Z.of_nat (length (filter (fun ev => ev = EvTime) (trace w))))) calm.

(** The pause after a pair fails unless it follows a log line. *)
Definition restless : Env :=
  with_sleep (fun w _ => match last (trace w) with
                         | Some (EvLog _ _) => None
                         | _ => Some (Exn RuntimeError "event loop is closed")
                         end) calm.

Definition archive : ImageCollection :=
  {| base_path := {| root := ""; names := ["keker"] |} |}.

Definition two_pairs : Collector :=
  {| image_collection := archive; areas := [Germany; France]; types := [Birch] |}.

(** ** Start-up ([__init__] and the [__main__] block) *)

(** [ImageCollection.__init__] (lines 65-67).  [parse] stands for pathlib's
    [Path(base_path)], which the program leaves to the library. *)
Definition ImageCollection_init (env : Env) (parse : string -> Path)
  (base : string) : M ImageCollection :=
  (let self := {| base_path := parse base |} in
   mkdir env (base_path self) ;;
   ret self)%py.

(** [Collector.__init__] (lines 111-120).  Building the HTTP client opens
    no connection; the only interaction is the [mkdir] of the archive. *)
Definition Collector_init (env : Env) (parse : string -> Path)
  (areas : list Area) (types : list AllergyType) (base : string)
  : M Collector :=
  (image_collection <- ImageCollection_init env parse base ;;
   ret {| image_collection := image_collection; areas := areas; types := types |})%py.

(** The [__main__] block (lines 152-160), observed for the first [n] sweeps:
    an exception that leaves the constructor leaves the process. *)
Definition main (env : Env) (parse : string -> Path) (n : nat) (w : World)
  : loop_state :=
  match Collector_init env parse (members (E := Area)) (members (E := AllergyType))
          "keker" w with
  | (Ret collector, w') => run env collector n w'
  | (Raise e, w') => Exited e w'
  end.

(** The collector the [__main__] block builds, once its path is parsed. *)
Definition shipped (base : Path) : Collector :=
  {| image_collection := {| base_path := base |};
     areas := members; types := members |}.

(** The server answers 404 with a body that is no image. *)
Definition error_page : Env :=
  {| http_get := http_get not_found; time_time := time_time calm;
     datetime_now := datetime_now calm; asyncio_sleep := asyncio_sleep calm;
     Image_open := fun _ => inl (Exn UnidentifiedImageError "cannot identify image file");
     font_getbbox := font_getbbox calm; Image_save := Image_save calm;
     Path_mkdir := Path_mkdir calm; aiofiles_open := aiofiles_open calm;
     file_write := file_write calm |}.

(** No folder can be created: the file system is read-only. *)
Definition read_only : Env :=
  {| http_get := http_get calm; time_time := time_time calm;
     datetime_now := datetime_now calm; asyncio_sleep := asyncio_sleep calm;
     Image_open := Image_open calm; font_getbbox := font_getbbox calm;
     Image_save := Image_save calm;
     Path_mkdir := fun _ _ => Some (Exn OSError "Read-only file system");
     aiofiles_open := aiofiles_open calm; file_write := file_write calm |}.

(** pathlib on a plain relative name such as "keker". *)
Definition one_name (s : string) : Path := {| root := ""; names := [s] |}.

(** A collector with types but no area to sweep. *)
Definition no_area : Collector :=
  {| image_collection := archive; areas := []; types := [Birch; Alder] |}.

(** ** Further observations *)

(** The world a loop has reached. *)
Definition world_of (st : loop_state) : World :=
  match st with
  | Looping w => w
  | Exited _ w => w
  end.

(** The requests and the pauses of a trace, in order: what the remote
    server can see of the program's pace. *)
Definition pace (tr : list event) : list event :=
  omap (fun ev => match ev with EvGet _ _ | EvSleep _ => Some ev | _ => None end) tr.

(** What a sweep that visits [ps] completely shows of its pace: for each
    pair its request, then the pause of 5 seconds. *)
Definition full_pace (ps : list (Area * AllergyType)) : list event :=
  p ← ps; [EvGet (fst (request_of p)) (snd (request_of p)); EvSleep (inject_Z 5)].

(** The files a collector may store: those of its own pairs, at any date. *)
Definition archive_file (self : Collector) (p : string) : Prop :=
  exists type area now,
    type ∈ types self /\ area ∈ areas self
    /\ p = fspath (file_of (image_collection self) type area now).

(** From [w] to [w'] no file was removed, and no file changed but those
    allowed by [allowed]. *)
Definition files_kept (allowed : string -> Prop) (w w' : World) : Prop :=
  forall p, (is_Some (fs w !! p) -> is_Some (fs w' !! p))
            /\ (~ allowed p -> fs w' !! p = fs w !! p).

(** A computation that moves the world along a relation, however it ends. *)
Definition advances {A} (R : World -> World -> Prop) (m : M A) : Prop :=
  forall w, R w (snd (m w)).

(** The character [c] does not occur in [s]. *)
Fixpoint absent (c : ascii) (s : string) : Prop :=
  match s with
  | EmptyString => True
  | String a s' => a <> c /\ absent c s'
  end.

(** * Properties *)

(** ** Sequencing *)

Lemma bind_Ret {A B} (m : M A) (k : A -> M B) (w w' : World) (a : A) :
  m w = (Ret a, w') -> bind m k w = k a w'.
Proof. unfold bind. intros ->. reflexivity. Qed.

Lemma bind_Raise {A B} (m : M A) (k : A -> M B) (w w' : World) (e : exn) :
  m w = (Raise e, w') -> bind m k w = (Raise e, w').
Proof. unfold bind. intros ->. reflexivity. Qed.

Lemma try_Ret {A} (m : M A) (h : exn -> M A) (w w' : World) (a : A) :
  m w = (Ret a, w') -> try_except_Exception m h w = (Ret a, w').
Proof. unfold try_except_Exception. intros ->. reflexivity. Qed.

Lemma try_caught {A} (m : M A) (h : exn -> M A) (w w' : World) (e : exn) :
  m w = (Raise e, w') -> isinstance_Exception e = true ->
  try_except_Exception m h w = h e w'.
Proof. unfold try_except_Exception. intros -> ->. reflexivity. Qed.

Lemma try_escapes {A} (m : M A) (h : exn -> M A) (w w' : World) (e : exn) :
  m w = (Raise e, w') -> isinstance_Exception e = false ->
  try_except_Exception m h w = (Raise e, w').
Proof. unfold try_except_Exception. intros -> ->. reflexivity. Qed.

Lemma gets_app (tr1 tr2 : list event) : gets (tr1 ++ tr2) = (gets tr1 ++ gets tr2)%list.
Proof. apply omap_app. Qed.

Lemma pauses_app (tr1 tr2 : list event) :
  pauses (tr1 ++ tr2) = (pauses tr1 ++ pauses tr2)%list.
Proof. apply omap_app. Qed.

(** ** The fetch *)

Lemma get_data_rejects (env : Env) (type : AllergyType) (area : Area)
  (day : Z) (lang : string) (w : World) :
  day < 0 \/ 2 < day ->
  get_data env type area day lang w
  = (Raise (Exn AssertionError "only day between is supported"), w).
Proof.
  intros Hday. unfold get_data.
  replace ((0 <=? day)%Z && (day <=? 2)%Z) with false
    by (symmetry; apply andb_false_iff; rewrite Z.leb_gt, Z.leb_gt; lia).
  reflexivity.
Qed.

Lemma get_data_accepts (env : Env) (type : AllergyType) (area : Area)
  (day : Z) (lang : string) (w : World) :
  0 <= day <= 2 ->
  get_data env type area day lang w
  = (result <- client_get env "/dex/rest/geo/map"
                 [("type", PyStr (value type)); ("area", PyStr (value area));
                  ("day", PyInt day); ("lang", PyStr lang)] ;;
     ret (content result))%py w.
Proof.
  intros Hday.
  assert (Hok : (0 <=? day)%Z && (day <=? 2)%Z = true).
  { apply andb_true_iff. rewrite !Z.leb_le. lia. }
  unfold get_data. rewrite Hok. reflexivity.
Qed.

Lemma get_data_transport (env : Env) (type : AllergyType) (area : Area)
  (day : Z) (lang : string) (w : World) :
  0 <= day <= 2 ->
  let url := "/dex/rest/geo/map" in
  let params := [("type", PyStr (value type)); ("area", PyStr (value area));
                 ("day", PyInt day); ("lang", PyStr lang)] in
  match http_get env w url params with
  | inl e => get_data env type area day lang w = (Raise e, emit (EvGet url params) w)
  | inr r => get_data env type area day lang w
             = (Ret (content r), emit (EvGet url params) w)
  end.
Proof.
  intros Hday url params. rewrite (get_data_accepts _ _ _ _ _ _ Hday).
  unfold bind, ret, client_get. fold url params.
  destruct (http_get env w url params); reflexivity.
Qed.

(** C5. A day offset outside [0, 2] makes [get_data] raise its
    AssertionError with the world untouched, so before any request is
    issued; a day offset within [0, 2] passes the check and the GET request,
    carrying that day, is issued. *)
Theorem get_data_day_bound (env : Env) (type : AllergyType) (area : Area)
  (day : Z) (lang : string) (w : World) :
  (day < 0 \/ 2 < day ->
   get_data env type area day lang w
   = (Raise (Exn AssertionError "only day between is supported"), w))
  /\ (0 <= day <= 2 ->
      get_data env type area day lang w
      = (result <- client_get env "/dex/rest/geo/map"
                     [("type", PyStr (value type)); ("area", PyStr (value area));
                      ("day", PyInt day); ("lang", PyStr lang)] ;;
         ret (content result))%py w
      /\ trace (snd (get_data env type area day lang w))
         = (trace w ++ [EvGet "/dex/rest/geo/map"
                         [("type", PyStr (value type)); ("area", PyStr (value area));
                          ("day", PyInt day); ("lang", PyStr lang)]])%list).
Proof.
  split; intros Hday.
  - apply get_data_rejects. exact Hday.
  - split; [apply get_data_accepts; exact Hday|].
    pose proof (get_data_transport env type area day lang w Hday) as H.
    cbv zeta in H. destruct (http_get env w _ _); rewrite H; reflexivity.
Qed.

(** The two halves of C5 at day 3, day -1 and day 2. *)
Lemma get_data_day_bound_witness :
  get_data calm Birch Germany 3 "en" empty_world
  = (Raise (Exn AssertionError "only day between is supported"), empty_world)
  /\ get_data calm Birch Germany (-1) "en" empty_world
     = (Raise (Exn AssertionError "only day between is supported"), empty_world)
  /\ trace (snd (get_data calm Birch Germany 2 "en" empty_world))
     = [EvGet "/dex/rest/geo/map"
          [("type", PyStr "BETU"); ("area", PyStr "de");
           ("day", PyInt 2); ("lang", PyStr "en")]].
Proof.
  split; [|split].
  - apply (get_data_day_bound calm Birch Germany 3 "en" empty_world). lia.
  - apply (get_data_day_bound calm Birch Germany (-1) "en" empty_world). lia.
  - apply (get_data_day_bound calm Birch Germany 2 "en" empty_world). lia.
Defined.

(** C3, as the code has it. [get_data] is a thin transport: once the day
    check has passed, an exception raised by the HTTP client reaches the
    caller unchanged, and a response is returned as its body whatever its
    status code. *)
Theorem get_data_thin_transport (env : Env) (type : AllergyType) (area : Area)
  (day : Z) (lang : string) (w : World) :
  0 <= day <= 2 ->
  let url := "/dex/rest/geo/map" in
  let params := [("type", PyStr (value type)); ("area", PyStr (value area));
                 ("day", PyInt day); ("lang", PyStr lang)] in
  match http_get env w url params with
  | inl e => get_data env type area day lang w = (Raise e, emit (EvGet url params) w)
  | inr r => get_data env type area day lang w
             = (Ret (content r), emit (EvGet url params) w)
  end.
Proof. apply get_data_transport. Qed.

Lemma get_data_thin_transport_witness :
  get_data germany_down Birch Germany 0 "en" empty_world
  = (Raise (Exn HTTPError "connection refused"),
     emit (EvGet "/dex/rest/geo/map"
             [("type", PyStr "BETU"); ("area", PyStr "de");
              ("day", PyInt 0); ("lang", PyStr "en")]) empty_world).
Proof.
  apply (get_data_thin_transport germany_down Birch Germany 0 "en" empty_world). lia.
Defined.

(** C3 as stated fails: the server answers 404 and [get_data] returns the
    body of that response as if it were the image. *)
Lemma non_2xx_body_returned :
  http_get not_found empty_world "/dex/rest/geo/map"
    [("type", PyStr "BETU"); ("area", PyStr "de"); ("day", PyInt 0); ("lang", PyStr "en")]
  = inr {| status_code := 404; content := other_body |}
  /\ fst (get_data not_found Birch Germany 0 "en" empty_world) = Ret other_body.
Proof. split; reflexivity. Qed.

(** ** The daily pause *)

Lemma run_iteration_after_sweep (env : Env) (self : Collector) (w w1 : World) (d : Q) :
  _run_step env self w = (Ret d, w1) ->
  run_iteration env self w
  = sleep env (daily_delay d) (emit (EvLog INFO "Successfully fetched todays data") w1).
Proof.
  intros H. unfold run_iteration.
  rewrite (bind_Ret _ _ w (emit (EvLog INFO "Successfully fetched todays data") w1)
             (Some d)); [reflexivity|].
  apply try_Ret. rewrite (bind_Ret _ _ w w1 d H). reflexivity.
Qed.

Lemma trace_sleep (env : Env) (q : Q) (w : World) :
  trace (snd (sleep env q w)) = (trace w ++ [EvSleep q])%list.
Proof. unfold sleep. destruct (asyncio_sleep env w q); reflexivity. Qed.

(** C1, as the code has it. After a sweep that returned its duration [d],
    [run] logs and calls [asyncio.sleep] with 86400 - d, unclamped: that is
    max(0, 86400 - d) as long as d is at most 86400, and a negative number
    when d exceeds 86400. *)
Theorem daily_pause_unclamped (env : Env) (self : Collector) (w w1 : World) (d : Q) :
  _run_step env self w = (Ret d, w1) ->
  run_iteration env self w
  = sleep env (daily_delay d) (emit (EvLog INFO "Successfully fetched todays data") w1)
  /\ pauses (trace (snd (run_iteration env self w)))
     = (pauses (trace w1) ++ [daily_delay d])%list
  /\ (daily_delay d == inject_Z 86400 - d)%Q
  /\ ((d <= inject_Z 86400)%Q -> (daily_delay d == nextSleep d)%Q)
  /\ ((inject_Z 86400 < d)%Q -> (daily_delay d < 0)%Q).
Proof.
  intros H. rewrite (run_iteration_after_sweep _ _ _ _ _ H).
  split; [reflexivity|]. split.
  { rewrite trace_sleep, pauses_app. cbn [emit trace].
    rewrite pauses_app. cbn. rewrite app_nil_r. reflexivity. }
  unfold daily_delay, nextSleep.
  change (inject_Z (24 * 60 * 60)) with (inject_Z 86400).
  split; [reflexivity|]. split; intros Hd.
  - symmetry. apply Q.max_r. lra.
  - lra.
Qed.

Lemma daily_pause_unclamped_witness :
  pauses (trace (snd (run_iteration calm two_pairs empty_world)))
  = [inject_Z 5; inject_Z 5; daily_delay (inject_Z 13 - inject_Z 0)].
Proof.
  apply (daily_pause_unclamped calm two_pairs empty_world
           (snd (_run_step calm two_pairs empty_world)) (inject_Z 13 - inject_Z 0)).
  vm_compute. reflexivity.
Defined.

(** C1 as stated fails: a sweep that lasts 86401 seconds is followed by
    [asyncio.sleep(-1)], where the specification's [nextSleep] gives 0. *)
Lemma overlong_sweep_negative_pause :
  exists (d : Q) (w1 : World),
    _run_step slow two_pairs empty_world = (Ret d, w1)
    /\ (inject_Z 86400 < d)%Q
    /\ pauses (trace (snd (run_iteration slow two_pairs empty_world)))
       = [inject_Z 5; inject_Z 5; (-1)%Q]
    /\ nextSleep d = 0%Q
    /\ ~ (daily_delay d == nextSleep d)%Q.
Proof.
  eexists _, _. split; [vm_compute; reflexivity|].
  split; [reflexivity|]. split; [reflexivity|]. split; [reflexivity|].
  vm_compute. discriminate.
Qed.

(** ** Dates and labels *)

(** A boolean property checked on every integer of a range holds on it. *)
Lemma range_check (P : Z -> bool) (lo : Z) (n : Z) :
  forallb P (seqZ lo n) = true -> forall z, lo <= z < lo + n -> P z = true.
Proof.
  intros H z Hz. rewrite forallb_forall in H. apply H.
  apply list_elem_of_In, elem_of_seqZ. exact Hz.
Qed.

Lemma str_year (y : Z) :
  1000 <= y <= 9999 ->
  str y
  = String (digit y 3) (String (digit y 2) (String (digit y 1)
      (String (digit y 0) EmptyString))).
Proof.
  intros Hy. apply String.eqb_eq.
  apply (range_check (fun y => String.eqb (str y)
           (String (digit y 3) (String (digit y 2) (String (digit y 1)
              (String (digit y 0) EmptyString))))) 1000 9000); [|lia].
  vm_compute. reflexivity.
Qed.

Lemma zfill_two (n : Z) :
  1 <= n <= 31 ->
  zfill 2 (str n) = String (digit n 1) (String (digit n 0) EmptyString).
Proof.
  intros Hn. apply String.eqb_eq.
  apply (range_check (fun n => String.eqb (zfill 2 (str n))
           (String (digit n 1) (String (digit n 0) EmptyString))) 1 31); [|lia].
  vm_compute. reflexivity.
Qed.

Lemma strftime_is_YYYY_MM_DD (now : datetime) :
  valid_date now ->
  strftime_Y_m_d now = YYYY_MM_DD (year now) (month now) (day now).
Proof.
  intros (Hy & Hm & Hd). unfold strftime_Y_m_d, YYYY_MM_DD.
  rewrite (str_year _ Hy), (zfill_two (month now)) by lia.
  rewrite (zfill_two _ Hd). reflexivity.
Qed.

(** C9. For every capture moment in a year of four digits (1000 to
    9999) and every allergy type, the label is the date as YYYY-MM-DD, one
    space, and the name of the type; it is the one text [draw_on_image]
    draws on the image it encodes, whatever the image. *)
Theorem label_content (type : AllergyType) (now : datetime) :
  valid_date now ->
  label type now
  = YYYY_MM_DD (year now) (month now) (day now) ++ " " ++ name type
  /\ forall (env : Env) (content : bytes),
       match Image_open env content with
       | inl e => draw_on_image env type now content = inl e
       | inr sz =>
           draw_on_image env type now content
           = inr (Image_save env (stamped env type now content sz))
           /\ texts_drawn (stamped env type now content sz) = [label type now]
       end.
Proof.
  intros Hv. split.
  - unfold label. rewrite (strftime_is_YYYY_MM_DD _ Hv). reflexivity.
  - intros env content. unfold draw_on_image.
    destruct (Image_open env content) as [e|sz]; [reflexivity|].
    split; [reflexivity|].
    unfold texts_drawn, stamped.
    destruct (font_getbbox env (label type now)) as [[[b0 b1] b2] b3].
    reflexivity.
Qed.

Lemma label_content_witness :
  label Birch march_5 = "2024-03-05 Birch"
  /\ texts_drawn (stamped calm Birch march_5 sample_body (4, 4)) = ["2024-03-05 Birch"].
Proof.
  assert (Hv : valid_date march_5) by (unfold valid_date; cbn; lia).
  split.
  - apply (label_content Birch march_5 Hv).
  - apply (proj2 (label_content Birch march_5 Hv) calm sample_body).
Defined.

(** ** The backing plate *)

(** C8 fails on the code. Whatever the image and the label, the one plate
    [draw_on_image] draws is filled with alpha 1 out of 255 (under half a
    percent of full opacity), and the composite that follows it is of the
    image with itself, not of a plate layer over the image. *)
Theorem plate_fill_negligible (env : Env) (type : AllergyType) (now : datetime)
  (content : bytes) (sz : Z * Z) :
  plate_fills (stamped env type now content sz) = [(255, 255, 255, 1)]
  /\ map alpha (plate_fills (stamped env type now content sz)) = [1]
  /\ 200 * 1 < 255
  /\ exists xy txt,
       drawn (stamped env type now content sz)
       = [rounded_rectangle xy 3 (255, 255, 255, 1); alpha_composite true;
          draw_text (10, 10) txt (255, 255, 255, 255)].
Proof.
  unfold plate_fills, stamped.
  destruct (font_getbbox env (label type now)) as [[[b0 b1] b2] b3].
  cbn. split; [reflexivity|]. split; [reflexivity|]. split; [lia|].
  eexists _, _. reflexivity.
Qed.

(** ** Archive paths *)

Lemma append_cons (a : ascii) (s t : string) : String a s ++ t = String a (s ++ t).
Proof. reflexivity. Qed.

Lemma append_assoc (s t u : string) : (s ++ t) ++ u = s ++ t ++ u.
Proof.
  induction s as [|a s IH]; [reflexivity|].
  rewrite !append_cons, IH. reflexivity.
Qed.

Lemma concat_snoc (sep : string) (xs : list string) (s : string) :
  xs <> [] -> String.concat sep (xs ++ [s]) = String.concat sep xs ++ sep ++ s.
Proof.
  induction xs as [|x xs IH]; [congruence|]. intros _.
  destruct xs as [|y ys]; [reflexivity|].
  change (String.concat sep ((x :: y :: ys) ++ [s]))
    with (x ++ sep ++ String.concat sep ((y :: ys) ++ [s])).
  rewrite IH by discriminate.
  change (String.concat sep (x :: y :: ys))
    with (x ++ sep ++ String.concat sep (y :: ys)).
  rewrite !append_assoc. reflexivity.
Qed.

Lemma fspath_truediv_names (p : Path) (s : string) :
  fspath (truediv p s) = root p ++ String.concat "/" (names p ++ [s]).
Proof.
  unfold fspath, truediv. cbn [names root].
  destruct (names p); reflexivity.
Qed.

Lemma fspath_truediv (p : Path) (s : string) :
  names p <> [] -> fspath (truediv p s) = fspath p ++ "/" ++ s.
Proof.
  intros Hp. rewrite fspath_truediv_names, concat_snoc by exact Hp.
  unfold fspath. destruct (names p); [congruence|].
  rewrite append_assoc. reflexivity.
Qed.

Lemma truediv_names_nonempty (p : Path) (s : string) : names (truediv p s) <> [].
Proof. unfold truediv. cbn [names]. destruct (names p); discriminate. Qed.

(** The rendered path of the file, below the folder of the year. *)
Lemma fspath_file_of (self : ImageCollection) (type : AllergyType) (area : Area)
  (now : datetime) :
  fspath (file_of self type area now)
  = fspath (truediv (truediv (truediv (base_path self) (name type)) (name area))
              (str (year now)))
    ++ "/" ++ str (month now) ++ "/" ++ str (day now) ++ ".png".
Proof.
  unfold file_of, folder_of.
  rewrite !fspath_truediv by apply truediv_names_nonempty.
  rewrite !append_assoc. reflexivity.
Qed.

(** What a store that returns has done to the files. *)
Lemma save_image_Ret (env : Env) (self : ImageCollection) (content : bytes)
  (type : AllergyType) (area : Area) (w w' : World) :
  save_image env self content type area w = (Ret tt, w') ->
  exists sz,
    Image_open env content = inr sz
    /\ fs w' = <[fspath (file_of self type area (datetime_now env w)) :=
                  Image_save env (stamped env type (datetime_now env w) content sz)]>
               (fs w).
Proof.
  unfold save_image, bind, now_, mkdir, lift, draw_on_image, open_wb, write, ret, raise.
  destruct (Path_mkdir env _ _); [discriminate|].
  destruct (Image_open env content) as [e|sz]; [discriminate|].
  destruct (aiofiles_open env _ _); [discriminate|].
  destruct (file_write env _ _ _); [discriminate|].
  intros [= <-]. exists sz. split; [reflexivity|].
  cbn [fs set_file emit]. apply insert_insert_eq.
Qed.

(** C6. The file of a capture lies at base/type name/area name/year/
    month/day.png; the path depends on the date only, not on the time of
    day; and once two stores for the same type, area and day have both
    returned, the files are those from before the first store with the
    one file at that path holding the bytes of the second store. *)
Theorem archive_path_and_overwrite (self : ImageCollection) (type : AllergyType)
  (area : Area) :
  (forall now, names (base_path self) <> [] ->
     fspath (file_of self type area now)
     = fspath (base_path self) ++ "/" ++ name type ++ "/" ++ name area ++ "/"
       ++ str (year now) ++ "/" ++ str (month now) ++ "/" ++ str (day now) ++ ".png")
  /\ (forall now now',
        year now = year now' -> month now = month now' -> day now = day now' ->
        file_of self type area now = file_of self type area now')
  /\ (forall (env : Env) (content1 content2 : bytes) (w w1 w2 : World),
        save_image env self content1 type area w = (Ret tt, w1) ->
        save_image env self content2 type area w1 = (Ret tt, w2) ->
        year (datetime_now env w) = year (datetime_now env w1) ->
        month (datetime_now env w) = month (datetime_now env w1) ->
        day (datetime_now env w) = day (datetime_now env w1) ->
        let file := fspath (file_of self type area (datetime_now env w1)) in
        exists sz,
          Image_open env content2 = inr sz
          /\ fs w2 = <[file := Image_save env
                                 (stamped env type (datetime_now env w1) content2 sz)]>
                     (fs w)
          /\ fs w2 !! file
             = Some (Image_save env (stamped env type (datetime_now env w1) content2 sz))).
Proof.
  split; [|split].
  - intros now Hbase. rewrite fspath_file_of.
    rewrite fspath_truediv by apply truediv_names_nonempty.
    rewrite fspath_truediv by apply truediv_names_nonempty.
    rewrite fspath_truediv by exact Hbase.
    rewrite !append_assoc. reflexivity.
  - intros now now' Hy Hm Hd. unfold file_of, folder_of. rewrite Hy, Hm, Hd.
    reflexivity.
  - intros env c1 c2 w w1 w2 H1 H2 Hy Hm Hd file.
    destruct (save_image_Ret _ _ _ _ _ _ _ H1) as (sz1 & _ & Hfs1).
    destruct (save_image_Ret _ _ _ _ _ _ _ H2) as (sz2 & Hopen & Hfs2).
    exists sz2. split; [exact Hopen|].
    assert (Hfile : fspath (file_of self type area (datetime_now env w)) = file).
    { unfold file, file_of, folder_of. rewrite Hy, Hm, Hd. reflexivity. }
    rewrite Hfile in Hfs1. fold file in Hfs2.
    assert (Hfs : fs w2 = <[file := Image_save env
                     (stamped env type (datetime_now env w1) c2 sz2)]> (fs w)).
    { rewrite Hfs2, Hfs1. apply insert_insert_eq. }
    split; [exact Hfs|]. rewrite Hfs. apply lookup_insert_eq.
Qed.

Lemma archive_path_and_overwrite_witness :
  fspath (file_of archive Birch Germany march_5) = "keker/Birch/Germany/2024/3/5.png"
  /\ exists sz,
       Image_open calm other_body = inr sz
       /\ fs (snd (save_image calm archive other_body Birch Germany
                     (snd (save_image calm archive sample_body Birch Germany
                             empty_world))))
          = <["keker/Birch/Germany/2024/3/5.png" :=
                Image_save calm (stamped calm Birch march_5 other_body sz)]> ∅
       /\ fs (snd (save_image calm archive other_body Birch Germany
                     (snd (save_image calm archive sample_body Birch Germany
                             empty_world))))
          !! "keker/Birch/Germany/2024/3/5.png"
          = Some (Image_save calm (stamped calm Birch march_5 other_body sz)).
Proof.
  split.
  - apply (proj1 (archive_path_and_overwrite archive Birch Germany) march_5).
    discriminate.
  - apply (proj2 (proj2 (archive_path_and_overwrite archive Birch Germany))
             calm sample_body other_body empty_world
             (snd (save_image calm archive sample_body Birch Germany empty_world))
             (snd (save_image calm archive other_body Birch Germany
                     (snd (save_image calm archive sample_body Birch Germany
                             empty_world)))));
      reflexivity.
Defined.

(** ** Unpadded components *)

Lemma compare_common_prefix (p s t : string) :
  String.compare (p ++ s) (p ++ t) = String.compare s t.
Proof.
  induction p as [|a p IH]; [reflexivity|].
  rewrite !append_cons. cbn [String.compare].
  unfold Ascii.compare. rewrite N.compare_refl. exact IH.
Qed.

Lemma ltb_common_prefix (p s t : string) :
  String.ltb (p ++ s) (p ++ t) = String.ltb s t.
Proof. unfold String.ltb. rewrite compare_common_prefix. reflexivity. Qed.

Lemma str_one_digit (n : Z) :
  1 <= n <= 9 -> str n = String (digit n 0) EmptyString.
Proof.
  intros Hn. apply String.eqb_eq.
  apply (range_check (fun n => String.eqb (str n) (String (digit n 0) EmptyString))
           1 9); [|lia].
  vm_compute. reflexivity.
Qed.

Lemma str_one_digit_unpadded (n : Z) : 1 <= n <= 9 -> str n <> zfill 2 (str n).
Proof.
  intros Hn Heq. apply (f_equal String.length) in Heq.
  rewrite zfill_two in Heq by lia. rewrite str_one_digit in Heq by lia.
  discriminate.
Qed.

(** A month from 2 to 9 sorts after a month from 10 to 12, whatever follows. *)
Lemma month_misordered (m m' : Z) (s s' : string) :
  2 <= m <= 9 -> 10 <= m' <= 12 ->
  String.ltb (str m' ++ s') (str m ++ s) = true.
Proof.
  intros Hm Hm'.
  assert (Em : m = 2 \/ m = 3 \/ m = 4 \/ m = 5 \/ m = 6 \/ m = 7 \/ m = 8 \/ m = 9)
    by lia.
  assert (Em' : m' = 10 \/ m' = 11 \/ m' = 12) by lia.
  destruct Em' as [->|[->| ->]];
    (destruct Em as [->|[->|[->|[->|[->|[->|[->| ->]]]]]]]; lazy; reflexivity).
Qed.

(** A one-digit day sorts after a two-digit day with a smaller first digit. *)
Lemma day_misordered (d d' : Z) (s s' : string) :
  1 <= d <= 9 -> 10 <= d' <= 31 -> d' / 10 < d ->
  String.ltb (str d' ++ s') (str d ++ s) = true.
Proof.
  intros Hd Hd' Hlt.
  assert (Ed : d = 1 \/ d = 2 \/ d = 3 \/ d = 4 \/ d = 5 \/ d = 6 \/ d = 7 \/ d = 8
               \/ d = 9) by lia.
  assert (Hhead : exists c r, str d' = String c r
                    /\ Z.of_N (N_of_ascii c) = 48 + d' / 10).
  { pose (P := fun n => match str n with
                        | String c _ => (Z.of_N (N_of_ascii c) =? 48 + n / 10)%Z
                        | EmptyString => false
                        end).
    assert (Hb : P d' = true).
    { apply (range_check P 10 22); [vm_compute; reflexivity|lia]. }
    unfold P in Hb. destruct (str d') as [|c r]; [discriminate|].
    exists c, r. split; [reflexivity|]. apply Z.eqb_eq. exact Hb. }
  destruct Hhead as (c & r & -> & Hc).
  rewrite (str_one_digit d) by lia.
  assert (Hdig : Z.of_N (N_of_ascii (digit d 0)) = 48 + d).
  { destruct Ed as [->|[->|[->|[->|[->|[->|[->|[->| ->]]]]]]]]; reflexivity. }
  rewrite !append_cons. unfold String.ltb. cbn [String.compare].
  unfold Ascii.compare.
  assert (Hcmp : (N_of_ascii c ?= N_of_ascii (digit d 0))%N = Lt).
  { apply N.compare_lt_iff. lia. }
  rewrite Hcmp. reflexivity.
Qed.

(** C10. The year, the month and the day enter the path through [str]:
    unpadded decimal, so a value from 1 to 9 is one character, never two
    (month 3 gives the folder "3", day 3 the file "3.png").  Hence the
    paths do not sort in calendar order: within a year, a capture in a month
    from 2 to 9 sorts after every capture of months 10 to 12, and within a
    month a capture on a one-digit day sorts after every two-digit day with
    a smaller first digit. *)
Theorem unpadded_components (self : ImageCollection) (type : AllergyType)
  (area : Area) (now : datetime) :
  names (file_of self type area now)
  = (names (base_path self)
     ++ [name type; name area; str (year now); str (month now);
         (str (day now) ++ ".png")%string])%list
  /\ (forall n, 1 <= n <= 9 ->
        str n = String (digit n 0) EmptyString /\ str n <> zfill 2 (str n))
  /\ (forall later, year later = year now ->
        2 <= month now <= 9 -> 10 <= month later <= 12 ->
        String.ltb (fspath (file_of self type area later))
          (fspath (file_of self type area now)) = true)
  /\ (forall later, year later = year now -> month later = month now ->
        1 <= day now <= 9 -> 10 <= day later <= 31 -> day later / 10 < day now ->
        String.ltb (fspath (file_of self type area later))
          (fspath (file_of self type area now)) = true).
Proof.
  split; [|split; [|split]].
  - unfold file_of, folder_of, truediv. cbn [names].
    rewrite <- !app_assoc. reflexivity.
  - intros n Hn. split; [apply str_one_digit|apply str_one_digit_unpadded]; exact Hn.
  - intros later Hy Hm Hm'. rewrite !fspath_file_of, Hy.
    rewrite ltb_common_prefix, (ltb_common_prefix "/").
    apply month_misordered; assumption.
  - intros later Hy Hmo Hd Hd' Hlt. rewrite !fspath_file_of, Hy, Hmo.
    rewrite ltb_common_prefix, (ltb_common_prefix "/").
    rewrite ltb_common_prefix, (ltb_common_prefix "/").
    apply day_misordered; assumption.
Qed.

Lemma unpadded_components_witness :
  names (file_of archive Birch Germany march_5)
  = ["keker"; "Birch"; "Germany"; "2024"; "3"; "5.png"]
  /\ String.ltb "keker/Birch/Germany/2024/12/1.png" "keker/Birch/Germany/2024/3/5.png"
     = true
  /\ String.ltb "keker/Birch/Germany/2024/3/10.png" "keker/Birch/Germany/2024/3/5.png"
     = true.
Proof.
  split; [|split].
  - apply (unpadded_components archive Birch Germany march_5).
  - apply (proj1 (proj2 (proj2 (unpadded_components archive Birch Germany march_5)))
             {| year := 2024; month := 12; day := 1;
                hour := 0; minute := 0; second := 0 |});
      [reflexivity | cbn; lia | cbn; lia].
  - apply (proj2 (proj2 (proj2 (unpadded_components archive Birch Germany march_5)))
             {| year := 2024; month := 3; day := 10;
                hour := 0; minute := 0; second := 0 |});
      [reflexivity | reflexivity | cbn; lia | cbn; lia | vm_compute; reflexivity].
Defined.

(** ** The sweep *)

Section Sweep.

Context (env : Env) (self : Collector).

Lemma for_each_app {A} (xs ys : list A) (body : A -> M unit) (w : World) :
  for_each (xs ++ ys) body w = bind (for_each xs body) (fun _ => for_each ys body) w.
Proof.
  revert w. induction xs as [|x xs IH]; intros w; [reflexivity|].
  cbn [app for_each]. unfold bind.
  destruct (body x w) as [[[]|e] w']; [|reflexivity].
  rewrite IH. reflexivity.
Qed.

Lemma for_each_row {A B} (a : A) (ys : list B) (f : A -> B -> M unit) (w : World) :
  for_each ys (f a) w
  = for_each (b ← ys; [(a, b)]) (fun p => f (fst p) (snd p)) w.
Proof.
  revert w. induction ys as [|y ys IH]; intros w; [reflexivity|].
  rewrite bind_cons. cbn [app for_each fst snd]. unfold bind.
  destruct (f a y w) as [[[]|e] w']; [apply IH|reflexivity].
Qed.

Lemma for_each_product {A B} (xs : list A) (ys : list B) (f : A -> B -> M unit)
  (w : World) :
  for_each xs (fun a => for_each ys (f a)) w
  = for_each (a ← xs; b ← ys; [(a, b)]) (fun p => f (fst p) (snd p)) w.
Proof.
  revert w. induction xs as [|x xs IH]; intros w; [reflexivity|].
  rewrite bind_cons, for_each_app. cbn [for_each]. unfold bind.
  rewrite for_each_row.
  destruct (for_each _ _ w) as [[[]|e] w']; [apply IH|reflexivity].
Qed.

(** The two nested loops visit [pairs self], in that order. *)
Lemma nested_loops_sweep (w : World) :
  for_each (areas self) (fun area =>
    for_each (types self) (fun type => guarded_step env self area type)) w
  = sweep env self w.
Proof. apply (for_each_product (areas self) (types self) (guarded_step env self)). Qed.

Lemma _run_step_sweep (w : World) :
  _run_step env self w
  = match sweep env self (emit EvTime w) with
    | (Ret _, w') => (Ret (time_time env w' - time_time env w)%Q, emit EvTime w')
    | (Raise e, w') => (Raise e, w')
    end.
Proof.
  unfold _run_step, bind, time, ret. rewrite nested_loops_sweep.
  destruct (sweep env self (emit EvTime w)) as [[[]|e] w']; reflexivity.
Qed.

(** *** One guarded step *)

Lemma guarded_step_Ret (area : Area) (type : AllergyType) (w w1 : World) :
  step env self type area w = (Ret tt, w1) ->
  guarded_step env self area type w = sleep env (inject_Z 5) w1.
Proof.
  intros H. unfold guarded_step.
  rewrite (bind_Ret _ _ w w1 tt); [reflexivity|]. apply try_Ret. exact H.
Qed.

Lemma guarded_step_caught (area : Area) (type : AllergyType) (w w1 : World) (e : exn) :
  step env self type area w = (Raise e, w1) -> isinstance_Exception e = true ->
  guarded_step env self area type w
  = sleep env (inject_Z 5) (emit (EvLog WARNING (pair_warning type area e)) w1).
Proof.
  intros H He. unfold guarded_step.
  rewrite (bind_Ret _ _ w (emit (EvLog WARNING (pair_warning type area e)) w1) tt);
    [reflexivity|].
  rewrite (try_caught _ _ w w1 e H He). reflexivity.
Qed.

Lemma guarded_step_escapes (area : Area) (type : AllergyType) (w w1 : World) (e : exn) :
  step env self type area w = (Raise e, w1) -> isinstance_Exception e = false ->
  guarded_step env self area type w = (Raise e, w1).
Proof.
  intros H He. unfold guarded_step. apply bind_Raise.
  apply try_escapes; assumption.
Qed.

(** A step issues exactly one request, that of its pair, whatever happens
    next: nothing is retried. *)
Lemma step_gets (area : Area) (type : AllergyType) (w : World) :
  gets (trace (snd (step env self type area w)))
  = (gets (trace w) ++ [request_of (area, type)])%list.
Proof.
  unfold step, get_data, save_image, bind, assert_, client_get, now_, mkdir, lift,
    draw_on_image, open_wb, write, ret, raise.
  cbn [Z.leb Z.compare andb].
  destruct (http_get env w _ _) as [e|r]; cbn [snd trace emit].
  { rewrite gets_app. reflexivity. }
  destruct (Path_mkdir env _ _);
    [cbn [snd trace emit]; rewrite !gets_app; cbn; rewrite ?app_nil_r; reflexivity|].
  destruct (Image_open env _);
    [cbn [snd trace emit]; rewrite !gets_app; cbn; rewrite ?app_nil_r; reflexivity|].
  destruct (aiofiles_open env _ _);
    [cbn [snd trace emit]; rewrite !gets_app; cbn; rewrite ?app_nil_r; reflexivity|].
  destruct (file_write env _ _ _);
    cbn [snd trace emit set_file]; rewrite !gets_app; cbn; rewrite ?app_nil_r;
    reflexivity.
Qed.

Lemma guarded_step_gets (area : Area) (type : AllergyType) (w : World) :
  gets (trace (snd (guarded_step env self area type w)))
  = (gets (trace w) ++ [request_of (area, type)])%list.
Proof.
  pose proof (step_gets area type w) as Hg.
  destruct (step env self type area w) as [[[]|e] w1] eqn:Hs; cbn [snd] in Hg.
  - rewrite (guarded_step_Ret _ _ _ _ Hs), trace_sleep, gets_app, Hg.
    cbn. rewrite app_nil_r. reflexivity.
  - destruct (isinstance_Exception e) eqn:He.
    + rewrite (guarded_step_caught _ _ _ _ _ Hs He), trace_sleep, gets_app.
      cbn [trace emit]. rewrite gets_app, Hg. cbn. rewrite !app_nil_r. reflexivity.
    + rewrite (guarded_step_escapes _ _ _ _ _ Hs He). exact Hg.
Qed.

(** A step that returns has written the file of its pair: the response
    body, stamped for the moment of the store. *)
Lemma step_Ret_written (area : Area) (type : AllergyType) (w w1 : World) :
  step env self type area w = (Ret tt, w1) ->
  exists now r sz,
    http_get env w (fst (request_of (area, type))) (snd (request_of (area, type)))
    = inr r
    /\ Image_open env (content r) = inr sz
    /\ fs w1 !! fspath (file_of (image_collection self) type area now)
       = Some (Image_save env (stamped env type now (content r) sz)).
Proof.
  unfold step. intros H.
  pose proof (get_data_transport env type area 0 "en" w ltac:(lia)) as Hget.
  cbv zeta in Hget.
  change ("/dex/rest/geo/map") with (fst (request_of (area, type))) in Hget at 1.
  destruct (http_get env w _ _) as [e|r] eqn:Hhttp.
  - rewrite (bind_Raise _ _ _ _ _ Hget) in H. discriminate.
  - rewrite (bind_Ret _ _ _ _ _ Hget) in H.
    destruct (save_image_Ret _ _ _ _ _ _ _ H) as (sz & Hopen & Hfs).
    eexists _, r, sz. split; [reflexivity|]. split; [exact Hopen|].
    rewrite Hfs. apply lookup_insert_eq.
Qed.

(** When the transport fails, the step raises that failure and leaves the
    files as they were. *)
Lemma step_transport_failure (area : Area) (type : AllergyType) (w : World) (e : exn) :
  http_get env w (fst (request_of (area, type))) (snd (request_of (area, type)))
  = inl e ->
  exists w1, step env self type area w = (Raise e, w1) /\ fs w1 = fs w.
Proof.
  intros Hhttp. unfold step.
  pose proof (get_data_transport env type area 0 "en" w ltac:(lia)) as Hget.
  cbv zeta in Hget. cbn [request_of fst snd] in Hhttp. rewrite Hhttp in Hget.
  eexists. split; [apply bind_Raise; exact Hget|reflexivity].
Qed.

End Sweep.

(** ** What the guards catch *)

Section Guards.

Context (env : Env) (Henv : step_failures_only env).

Lemma roe_ret {A} (a : A) : raises_only_Exception (ret a).
Proof. intros w e w' H. discriminate. Qed.

Lemma roe_bind {A B} (m : M A) (k : A -> M B) :
  raises_only_Exception m -> (forall a, raises_only_Exception (k a)) ->
  raises_only_Exception (bind m k).
Proof.
  intros Hm Hk w e w'. unfold bind.
  destruct (m w) as [[a|e1] w1] eqn:E.
  - apply Hk.
  - intros [= <- <-]. exact (Hm _ _ _ E).
Qed.

Lemma roe_try {A} (m : M A) (h : exn -> M A) :
  (forall e, raises_only_Exception (h e)) ->
  raises_only_Exception m -> raises_only_Exception (try_except_Exception m h).
Proof.
  intros Hh Hm w e w'. unfold try_except_Exception.
  destruct (m w) as [[a|e1] w1] eqn:E; [discriminate|].
  destruct (isinstance_Exception e1) eqn:E1.
  - apply Hh.
  - intros [= <- <-]. rewrite (Hm _ _ _ E) in E1. discriminate.
Qed.

Lemma roe_for_each {A} (xs : list A) (body : A -> M unit) :
  (forall x, raises_only_Exception (body x)) -> raises_only_Exception (for_each xs body).
Proof.
  intros Hb. induction xs as [|x xs IH]; cbn [for_each].
  - apply roe_ret.
  - apply roe_bind; [apply Hb|intros _; exact IH].
Qed.

Lemma roe_log (lvl : level) (msg : string) : raises_only_Exception (log lvl msg).
Proof. intros w e w' H. discriminate. Qed.

Lemma roe_time : raises_only_Exception (time env).
Proof. intros w e w' H. discriminate. Qed.

Lemma roe_now : raises_only_Exception (now_ env).
Proof. intros w e w' H. discriminate. Qed.

Lemma roe_sleep (q : Q) :
  pause_failures_only env -> raises_only_Exception (sleep env q).
Proof.
  intros Hp w e w'. unfold sleep.
  destruct (asyncio_sleep env w q) eqn:E; [|discriminate].
  intros [= <- <-]. exact (Hp _ _ _ E).
Qed.

Lemma roe_assert (cond : bool) (msg : string) : raises_only_Exception (assert_ cond msg).
Proof. intros w e w'. destruct cond; [discriminate|]. intros [= <- <-]. reflexivity. Qed.

Lemma roe_client_get (url : string) (ps : list (string * pyval)) :
  raises_only_Exception (client_get env url ps).
Proof.
  intros w e w'. unfold client_get.
  destruct (http_get env w url ps) eqn:E; [|discriminate].
  intros [= <- <-]. exact (http_get_exn env Henv _ _ _ _ E).
Qed.

Lemma roe_mkdir (p : Path) : raises_only_Exception (mkdir env p).
Proof.
  intros w e w'. unfold mkdir.
  destruct (Path_mkdir env w p) eqn:E; [|discriminate].
  intros [= <- <-]. exact (Path_mkdir_exn env Henv _ _ _ E).
Qed.

Lemma roe_open_wb (p : Path) : raises_only_Exception (open_wb env p).
Proof.
  intros w e w'. unfold open_wb.
  destruct (aiofiles_open env w p) eqn:E; [|discriminate].
  intros [= <- <-]. exact (aiofiles_open_exn env Henv _ _ _ E).
Qed.

Lemma roe_write (p : Path) (data : bytes) : raises_only_Exception (write env p data).
Proof.
  intros w e w'. unfold write.
  destruct (file_write env w p data) eqn:E; [|discriminate].
  intros [= <- <-]. exact (file_write_exn env Henv _ _ _ _ E).
Qed.

Lemma roe_draw_on_image (type : AllergyType) (now : datetime) (content : bytes) :
  raises_only_Exception (lift (draw_on_image env type now content)).
Proof.
  intros w e w'. unfold lift, draw_on_image.
  destruct (Image_open env content) eqn:E; [|discriminate].
  intros [= <- <-]. exact (Image_open_exn env Henv _ _ E).
Qed.

Create HintDb roe discriminated.
#[local] Hint Resolve roe_ret roe_log roe_time roe_now roe_sleep roe_assert
  roe_client_get roe_mkdir roe_open_wb roe_write roe_draw_on_image : roe.
#[local] Hint Extern 2 (raises_only_Exception (bind _ _)) =>
  apply roe_bind; [|intro] : roe.
#[local] Hint Extern 2 (raises_only_Exception (for_each _ _)) =>
  apply roe_for_each; intro : roe.
#[local] Hint Extern 2 (raises_only_Exception (try_except_Exception _ _)) =>
  apply roe_try; [intro|] : roe.

Lemma roe_step (self : Collector) (type : AllergyType) (area : Area) :
  raises_only_Exception (step env self type area).
Proof. unfold step, get_data, save_image. auto 12 with roe. Qed.

Lemma roe_guarded_step (self : Collector) (area : Area) (type : AllergyType) :
  pause_failures_only env -> raises_only_Exception (guarded_step env self area type).
Proof. intros Hp. unfold guarded_step. pose proof roe_step. auto 8 with roe. Qed.

Lemma roe__run_step (self : Collector) :
  pause_failures_only env -> raises_only_Exception (_run_step env self).
Proof.
  intros Hp. unfold _run_step.
  pose proof (fun a t => roe_guarded_step self a t Hp). auto 12 with roe.
Qed.

End Guards.

(** ** Per-pair isolation *)

Section Isolation.

Context (env : Env) (self : Collector).
Context (Henv : step_failures_only env) (Hpause : courtesy_pause_returns env).

Lemma courtesy_pause (w : World) :
  sleep env (inject_Z 5) w = (Ret tt, emit (EvSleep (inject_Z 5)) w).
Proof. unfold sleep. rewrite Hpause. reflexivity. Qed.

(** Whatever the step does, the guarded step returns. *)
Lemma guarded_step_returns (area : Area) (type : AllergyType) (w : World) :
  exists w1,
    guarded_step env self area type w
    = (Ret tt, emit (EvSleep (inject_Z 5)) w1)
    /\ (step env self type area w = (Ret tt, w1)
        \/ exists e w2, step env self type area w = (Raise e, w2)
                        /\ w1 = emit (EvLog WARNING (pair_warning type area e)) w2).
Proof.
  destruct (step env self type area w) as [[[]|e] w1] eqn:Hs.
  - exists w1. rewrite (guarded_step_Ret _ _ _ _ _ _ Hs), courtesy_pause.
    split; [reflexivity|left; reflexivity].
  - pose proof (roe_step env Henv self type area _ _ _ Hs) as He.
    eexists. rewrite (guarded_step_caught _ _ _ _ _ _ _ Hs He), courtesy_pause.
    split; [reflexivity|right; eexists _, _; split; reflexivity].
Qed.

Lemma turns_return (ps : list (Area * AllergyType)) (w : World) :
  exists w',
    for_each ps (turn env self) w = (Ret tt, w')
    /\ gets (trace w') = (gets (trace w) ++ map request_of ps)%list.
Proof.
  revert w. induction ps as [|[a t] ps IH]; intros w.
  - exists w. split; [reflexivity|]. cbn. rewrite app_nil_r. reflexivity.
  - destruct (guarded_step_returns a t w) as (w1 & Hg & _).
    destruct (IH (emit (EvSleep (inject_Z 5)) w1)) as (w' & Hrest & Hgets).
    exists w'. cbn [for_each]. split.
    + rewrite (bind_Ret _ _ w _ tt Hg). exact Hrest.
    + rewrite Hgets. pose proof (guarded_step_gets env self a t w) as H1.
      rewrite Hg in H1. cbn [snd] in H1. rewrite H1.
      rewrite <- app_assoc. reflexivity.
Qed.

End Isolation.


Lemma germany_down_failures : step_failures_only germany_down.
Proof.
  split; cbn; try discriminate.
  intros w url ps e. destruct (String.eqb (area_param ps) "de"); [|discriminate].
  intros [= <-]. reflexivity.
Qed.

Lemma germany_down_pause : courtesy_pause_returns germany_down.
Proof. intros w. reflexivity. Qed.


(** The scenario of the specification: the fetch fails for Germany and
    succeeds for France; the sweep returns, the failure is logged, and the
    archive holds the file of France and no file of Germany. *)
Example germany_down_sweep :
  fst (_run_step germany_down two_pairs empty_world) = Ret (inject_Z 10 - inject_Z 0)%Q
  /\ map_to_list (fs (snd (_run_step germany_down two_pairs empty_world)))
     = [("keker/Birch/France/2024/3/5.png",
         Image_save germany_down (stamped germany_down Birch march_5 sample_body (4, 4)))]
  /\ EvLog WARNING
       "Got error while running for type='AllergyType.Birch' and area='Area.Germany': connection refused"
     ∈ trace (snd (_run_step germany_down two_pairs empty_world)).
Proof.
  split; [vm_compute; reflexivity|]. split; [vm_compute; reflexivity|].
  apply list_elem_of_In. vm_compute. tauto.
Qed.

(** ** Precondition violations *)

(** C4, as the code has it. An AssertionError raised inside a step, the
    class the day-offset check of [get_data] raises, is an instance of
    [Exception]: the per-pair guard catches it, logs it at WARNING and goes
    on to the pause between pairs, as it does for a transport, annotation
    or storage failure.  The request is issued once, nothing is retried,
    and the error is not passed on towards process exit. *)
Theorem assertion_error_is_isolated (env : Env) (self : Collector) (area : Area)
  (type : AllergyType) (w w1 : World) (e : exn) :
  step env self type area w = (Raise e, w1) ->
  exn_class_of e = AssertionError ->
  isinstance_Exception e = true
  /\ guarded_step env self area type w
     = sleep env (inject_Z 5) (emit (EvLog WARNING (pair_warning type area e)) w1)
  /\ gets (trace (snd (guarded_step env self area type w)))
     = (gets (trace w) ++ [request_of (area, type)])%list
  /\ (forall e', fst (guarded_step env self area type w) = Raise e' ->
        asyncio_sleep env (emit (EvLog WARNING (pair_warning type area e)) w1)
          (inject_Z 5) = Some e')
  /\ forall day lang w',
       day < 0 \/ 2 < day ->
       exists e',
         get_data env type area day lang w' = (Raise e', w')
         /\ exn_class_of e' = AssertionError
         /\ isinstance_Exception e' = true.
Proof.
  intros Hs Hcls.
  assert (He : isinstance_Exception e = true).
  { unfold isinstance_Exception. rewrite Hcls. reflexivity. }
  split; [exact He|]. split; [exact (guarded_step_caught _ _ _ _ _ _ _ Hs He)|].
  split; [apply guarded_step_gets|]. split.
  - intros e'. rewrite (guarded_step_caught _ _ _ _ _ _ _ Hs He). unfold sleep.
    destruct (asyncio_sleep env _ _); cbn [fst]; congruence.
  - intros day lang w' Hday.
    exists (Exn AssertionError "only day between is supported").
    split; [|split; reflexivity].
    apply get_data_rejects. exact Hday.
Qed.

Lemma assertion_error_is_isolated_witness :
  guarded_step client_asserts two_pairs Germany Birch empty_world
  = sleep client_asserts (inject_Z 5)
      (emit (EvLog WARNING
               (pair_warning Birch Germany (Exn AssertionError "unexpected state")))
         (snd (step client_asserts two_pairs Birch Germany empty_world))).
Proof.
  apply (assertion_error_is_isolated client_asserts two_pairs Germany Birch
           empty_world (snd (step client_asserts two_pairs Birch Germany empty_world))
           (Exn AssertionError "unexpected state"));
    reflexivity.
Defined.

(** C4 as stated fails: the AssertionError of an out-of-range day offset
    is an [Exception]; raised inside the fetch of a pair, it is caught by
    the guard, the guarded step returns, the sweep completes with one
    warning per pair, and [run] is still looping after two sweeps. *)
Lemma assertion_error_is_caught :
  fst (get_data calm Birch Germany 3 "en" empty_world)
  = Raise (Exn AssertionError "only day between is supported")
  /\ isinstance_Exception (Exn AssertionError "only day between is supported") = true
  /\ fst (step client_asserts two_pairs Birch Germany empty_world)
     = Raise (Exn AssertionError "unexpected state")
  /\ fst (guarded_step client_asserts two_pairs Germany Birch empty_world) = Ret tt
  /\ fst (try_except_Exception
            (_ <- get_data calm Birch Germany 3 "en" ;; ret tt)%py
            (fun e => log WARNING (pair_warning Birch Germany e)) empty_world) = Ret tt
  /\ fst (_run_step client_asserts two_pairs empty_world)
     = Ret (inject_Z 7 - inject_Z 0)%Q
  /\ exists w', run client_asserts two_pairs 2 empty_world = Looping w'.
Proof.
  repeat (split; [vm_compute; reflexivity|]).
  eexists. vm_compute. reflexivity.
Qed.

(** ** How a turn of the loop starts *)

Section Starts.

Context (env : Env).

Lemma sw_ret {A} (a : A) : starts_with [] (ret a).
Proof. intros w. exists []. cbn. rewrite app_nil_r. reflexivity. Qed.

Lemma sw_emit {A} (m : M A) (evs : list event) :
  (forall w, trace (snd (m w)) = (trace w ++ evs)%list) -> starts_with [] m.
Proof. intros H w. exists evs. rewrite H. reflexivity. Qed.

Lemma sw_log (lvl : level) (msg : string) : starts_with [] (log lvl msg).
Proof. apply (sw_emit _ [EvLog lvl msg]). reflexivity. Qed.

Lemma sw_time : starts_with [] (time env).
Proof. apply (sw_emit _ [EvTime]). reflexivity. Qed.

Lemma sw_now : starts_with [] (now_ env).
Proof. apply (sw_emit _ [EvNow]). reflexivity. Qed.

Lemma sw_sleep (q : Q) : starts_with [] (sleep env q).
Proof. apply (sw_emit _ [EvSleep q]). apply trace_sleep. Qed.

Lemma sw_mkdir (p : Path) : starts_with [] (mkdir env p).
Proof.
  apply (sw_emit _ [EvMkdir (fspath p)]). intros w. unfold mkdir.
  destruct (Path_mkdir env w p); reflexivity.
Qed.

Lemma sw_open_wb (p : Path) : starts_with [] (open_wb env p).
Proof.
  apply (sw_emit _ [EvOpen (fspath p)]). intros w. unfold open_wb.
  destruct (aiofiles_open env w p); reflexivity.
Qed.

Lemma sw_write (p : Path) (data : bytes) : starts_with [] (write env p data).
Proof.
  apply (sw_emit _ [EvWrite (fspath p) data]). intros w. unfold write.
  destruct (file_write env w p data); reflexivity.
Qed.

Lemma sw_lift {A} (r : exn + A) : starts_with [] (lift r).
Proof. apply (sw_emit _ []). intros w. destruct r; cbn; rewrite app_nil_r; reflexivity. Qed.

Lemma sw_weaken {A} (evs : list event) (m : M A) : starts_with evs m -> starts_with [] m.
Proof. intros H w. destruct (H w) as (rest & ->). exists (evs ++ rest)%list. reflexivity. Qed.

(** What [m] starts with, [m ;; k] starts with. *)
Lemma sw_bind {A B} (evs : list event) (m : M A) (k : A -> M B) :
  starts_with evs m -> (forall a, starts_with [] (k a)) -> starts_with evs (bind m k).
Proof.
  intros Hm Hk w. unfold bind. destruct (Hm w) as (rest & Hrest).
  destruct (m w) as [[a|e] w1]; cbn [snd] in *.
  - destruct (Hk a w1) as (rest' & ->). rewrite Hrest. exists (rest ++ rest')%list.
    cbn [app]. rewrite <- !app_assoc. reflexivity.
  - exists rest. exact Hrest.
Qed.

Lemma sw_try {A} (evs : list event) (m : M A) (h : exn -> M A) :
  starts_with evs m -> (forall e, starts_with [] (h e)) ->
  starts_with evs (try_except_Exception m h).
Proof.
  intros Hm Hh w. unfold try_except_Exception. destruct (Hm w) as (rest & Hrest).
  destruct (m w) as [[a|e] w1]; cbn [snd] in *; [exists rest; exact Hrest|].
  destruct (isinstance_Exception e); [|exists rest; exact Hrest].
  destruct (Hh e w1) as (rest' & ->). rewrite Hrest. exists (rest ++ rest')%list.
  cbn [app]. rewrite <- !app_assoc. reflexivity.
Qed.

Lemma sw_for_each {A} (xs : list A) (body : A -> M unit) :
  (forall x, starts_with [] (body x)) -> starts_with [] (for_each xs body).
Proof.
  intros Hb. induction xs as [|x xs IH]; cbn [for_each].
  - apply sw_ret.
  - apply sw_bind; [apply Hb|intros _; exact IH].
Qed.

(** Reading the clock comes first, then what follows it. *)
Lemma sw_time_then {B} (evs : list event) (k : Q -> M B) :
  (forall t, starts_with evs (k t)) -> starts_with (EvTime :: evs) (bind (time env) k).
Proof.
  intros Hk w. unfold bind, time.
  destruct (Hk (time_time env w) (emit EvTime w)) as (rest & ->).
  exists rest. cbn [trace emit]. rewrite <- app_assoc. reflexivity.
Qed.

Lemma sw_get_data (type : AllergyType) (area : Area) :
  starts_with [EvGet (fst (request_of (area, type))) (snd (request_of (area, type)))]
    (get_data env type area 0 "en").
Proof.
  intros w. exists [].
  pose proof (get_data_transport env type area 0 "en" w ltac:(lia)) as H.
  cbv zeta in H. destruct (http_get env w _ _); rewrite H; reflexivity.
Qed.

Lemma sw_save_image (self : ImageCollection) (content : bytes) (type : AllergyType)
  (area : Area) :
  starts_with [] (save_image env self content type area).
Proof.
  unfold save_image.
  repeat first [ apply sw_bind; [|intro] | apply sw_now | apply sw_mkdir
               | apply sw_lift | apply sw_open_wb | apply sw_write ].
Qed.

Lemma sw_guarded_step (self : Collector) (area : Area) (type : AllergyType) :
  starts_with [EvGet (fst (request_of (area, type))) (snd (request_of (area, type)))]
    (guarded_step env self area type).
Proof.
  unfold guarded_step, step.
  apply sw_bind; [|intros _; apply sw_sleep].
  apply sw_try; [|intros e; apply sw_log].
  apply sw_bind; [apply sw_get_data|intros c; apply sw_save_image].
Qed.

Lemma sw_sweep (self : Collector) (p : Area * AllergyType)
  (ps : list (Area * AllergyType)) :
  pairs self = p :: ps ->
  starts_with [EvGet (fst (request_of p)) (snd (request_of p))] (sweep env self).
Proof.
  intros Hp. unfold sweep. rewrite Hp. cbn [for_each]. destruct p as [a t].
  apply sw_bind; [apply sw_guarded_step|].
  intros _. apply sw_for_each. intros [a' t'].
  apply (sw_weaken _ _ (sw_guarded_step self a' t')).
Qed.

(** Every turn of [while True] reads the clock and then fetches the first
    pair of the sweep. *)
Lemma sw_run_iteration (self : Collector) (p : Area * AllergyType)
  (ps : list (Area * AllergyType)) :
  pairs self = p :: ps ->
  starts_with [EvTime; EvGet (fst (request_of p)) (snd (request_of p))]
    (run_iteration env self).
Proof.
  intros Hp. unfold run_iteration.
  apply sw_bind; [|intros [d|]; [apply sw_sleep|apply sw_ret]].
  apply sw_try.
  - unfold _run_step. apply sw_bind.
    + apply sw_time_then. intros cur. apply sw_bind.
      * intros w. destruct (sw_sweep self p ps Hp w) as (rest & Hrest).
        exists rest. rewrite nested_loops_sweep. exact Hrest.
      * intros _. apply sw_bind; [apply sw_time|intros t; apply sw_ret].
    + intros d. apply sw_bind; [apply sw_log|intros _; apply sw_ret].
  - intros e. apply sw_bind; [apply sw_log|].
    intros _. apply sw_bind; [apply sw_sleep|intros _; apply sw_ret].
Qed.

End Starts.

(** ** The outer loop *)

Lemma run_iteration_after_escape (env : Env) (self : Collector) (w w1 : World)
  (e : exn) :
  _run_step env self w = (Raise e, w1) -> isinstance_Exception e = true ->
  run_iteration env self w
  = (sleep env (inject_Z 60) ;; ret tt)%py
      (emit (EvLog WARNING ("Got error while executing step: " ++ str_exn e)) w1).
Proof.
  intros H He. unfold run_iteration.
  assert (Hbody : (execution_time <- _run_step env self ;;
                   log INFO "Successfully fetched todays data" ;;
                   ret (Some execution_time))%py w = (Raise e, w1)).
  { apply bind_Raise. exact H. }
  unfold bind at 1. rewrite (try_caught _ _ w w1 e Hbody He).
  unfold bind, log, sleep, ret.
  destruct (asyncio_sleep env _ _); reflexivity.
Qed.

Lemma at_run_pause_success (w : World) :
  at_run_pause (emit (EvLog INFO "Successfully fetched todays data") w).
Proof. left. cbn [trace emit]. apply last_snoc. Qed.

Lemma at_run_pause_failure (w : World) (e : exn) :
  at_run_pause (emit (EvLog WARNING ("Got error while executing step: " ++ str_exn e)) w).
Proof. right. exists e. cbn [trace emit]. apply last_snoc. Qed.

(** With failures only and [run]'s own pauses completing, every turn of
    the loop returns. *)
Lemma run_iteration_returns (env : Env) (self : Collector) (w : World) :
  step_failures_only env -> pause_failures_only env -> run_pauses_return env ->
  exists w', run_iteration env self w = (Ret tt, w').
Proof.
  intros Henv Hp Hrun.
  destruct (_run_step env self w) as [[d|e] w1] eqn:Hs.
  - rewrite (run_iteration_after_sweep _ _ _ _ _ Hs). unfold sleep.
    rewrite (Hrun _ _ (at_run_pause_success w1)). eexists. reflexivity.
  - pose proof (roe__run_step env Henv self Hp _ _ _ Hs) as He.
    rewrite (run_iteration_after_escape _ _ _ _ _ Hs He). unfold bind, sleep, ret.
    rewrite (Hrun _ _ (at_run_pause_failure w1 e)). eexists. reflexivity.
Qed.

Lemma while_True_unfold (n : nat) (body : M unit) (w : World) :
  while_True (S n) body w
  = match body w with
    | (Ret _, w') => while_True n body w'
    | (Raise e, w') => Exited e w'
    end.
Proof. reflexivity. Qed.

(** One more turn: a loop that was left stays left, and otherwise the
    turn taken from the world reached decides. *)
Lemma while_True_S (n : nat) (body : M unit) (w : World) :
  while_True (S n) body w
  = match while_True n body w with
    | Looping wn => match body wn with
                    | (Ret _, w') => Looping w'
                    | (Raise e, w') => Exited e w'
                    end
    | Exited e w' => Exited e w'
    end.
Proof.
  revert w. induction n as [|n IH]; intros w.
  - cbn [while_True]. destruct (body w) as [[[]|e] w']; reflexivity.
  - rewrite (while_True_unfold (S n) body w), (while_True_unfold n body w).
    destruct (body w) as [[[]|e] w1]; [apply IH|reflexivity].
Qed.

Lemma run_S (env : Env) (self : Collector) (n : nat) (w : World) :
  run env self (S n) w
  = match run env self n w with
    | Looping wn => match run_iteration env self wn with
                    | (Ret _, w') => Looping w'
                    | (Raise e, w') => Exited e w'
                    end
    | Exited e w' => Exited e w'
    end.
Proof. unfold run. apply while_True_S. Qed.

Lemma run_iteration_uncaught (env : Env) (self : Collector) (w w1 : World) (e : exn) :
  _run_step env self w = (Raise e, w1) -> isinstance_Exception e = false ->
  run_iteration env self w = (Raise e, w1).
Proof.
  intros H He. unfold run_iteration. apply bind_Raise.
  apply try_escapes; [|exact He]. apply bind_Raise. exact H.
Qed.

(** A turn is left only by an exception that is no instance of
    [Exception], or by one that a pause of [run] itself raised. *)
Lemma run_iteration_exit_cause (env : Env) (self : Collector) (w w' : World) (e : exn) :
  run_iteration env self w = (Raise e, w') ->
  isinstance_Exception e = false
  \/ exists w0 q,
       at_run_pause w0 /\ asyncio_sleep env w0 q = Some e /\ w' = emit (EvSleep q) w0.
Proof.
  intros Hturn. destruct (_run_step env self w) as [[d|e0] w1] eqn:Hs.
  - rewrite (run_iteration_after_sweep _ _ _ _ _ Hs) in Hturn. unfold sleep in Hturn.
    destruct (asyncio_sleep env _ _) as [e1|] eqn:Hp; [|discriminate].
    injection Hturn as <- <-. right. eexists _, _.
    split; [apply at_run_pause_success|]. split; [exact Hp|reflexivity].
  - destruct (isinstance_Exception e0) eqn:He.
    + rewrite (run_iteration_after_escape _ _ _ _ _ Hs He) in Hturn.
      unfold bind, sleep, ret in Hturn.
      destruct (asyncio_sleep env _ _) as [e1|] eqn:Hp; [|discriminate].
      injection Hturn as <- <-. right. eexists _, _.
      split; [apply at_run_pause_failure|]. split; [exact Hp|reflexivity].
    + rewrite (run_iteration_uncaught _ _ _ _ _ Hs He) in Hturn.
      injection Hturn as <- _. left. exact He.
Qed.

Lemma run_exit_cause (env : Env) (self : Collector) (n : nat) (w w' : World) (e : exn) :
  run env self n w = Exited e w' ->
  isinstance_Exception e = false
  \/ exists w0 q,
       at_run_pause w0 /\ asyncio_sleep env w0 q = Some e /\ w' = emit (EvSleep q) w0.
Proof.
  revert e w'. induction n as [|n IH]; intros e w'.
  - discriminate.
  - rewrite run_S. destruct (run env self n w) as [wn|e0 w0].
    + destruct (run_iteration env self wn) as [[[]|e1] w1] eqn:Hturn; [discriminate|].
      intros [= <- <-]. exact (run_iteration_exit_cause _ _ _ _ _ Hturn).
    + intros [= <- <-]. apply IH. reflexivity.
Qed.

Lemma run_keeps_looping (env : Env) (self : Collector) (n : nat) (w : World) :
  step_failures_only env -> pause_failures_only env -> run_pauses_return env ->
  exists wn, run env self n w = Looping wn.
Proof.
  intros Henv Hp Hrun. induction n as [|n [wn IH]].
  - eexists. reflexivity.
  - rewrite run_S, IH.
    destruct (run_iteration_returns env self wn Henv Hp Hrun) as (w' & ->).
    eexists. reflexivity.
Qed.

(** C7. Take [run] after any number of turns, still looping.  If the
    sweep of its next turn is left by an error (an instance of [Exception])
    that escaped the per-pair guard, then [run] logs it at WARNING and calls
    [asyncio.sleep(60)], with no daily pause; the error does not end the
    loop: after that turn [run] is looping (or was left by what the pause of
    60 seconds itself raised), and its following turn reads the clock and
    fetches the first pair of the sweep.  Whenever [run] has been left, it
    was by an exception that is no instance of [Exception] or by one that
    one of its own two pauses raised, never by an error escaped from a
    sweep.  With an environment that raises failures only and in which
    [run]'s own pauses complete, [run] is looping after any number of turns
    and completes the next turn too. *)
Theorem escaped_error_restarts_sweep (env : Env) (self : Collector) (n : nat)
  (w : World) :
  (forall wn e w1,
     run env self n w = Looping wn ->
     _run_step env self wn = (Raise e, w1) ->
     isinstance_Exception e = true ->
     let w2 := emit (EvLog WARNING ("Got error while executing step: " ++ str_exn e)) w1 in
     run env self (S n) w
     = match asyncio_sleep env w2 (inject_Z 60) with
       | None => Looping (emit (EvSleep (inject_Z 60)) w2)
       | Some e' => Exited e' (emit (EvSleep (inject_Z 60)) w2)
       end
     /\ trace (world_of (run env self (S n) w))
        = (trace w1 ++ [EvLog WARNING ("Got error while executing step: " ++ str_exn e);
                        EvSleep (inject_Z 60)])%list
     /\ (asyncio_sleep env w2 (inject_Z 60) = None ->
         forall p ps,
           pairs self = p :: ps ->
           exists rest,
             trace (world_of (run env self (S (S n)) w))
             = (trace w1
                ++ [EvLog WARNING ("Got error while executing step: " ++ str_exn e);
                    EvSleep (inject_Z 60); EvTime;
                    EvGet (fst (request_of p)) (snd (request_of p))]
                ++ rest)%list))
  /\ (forall e w',
        run env self n w = Exited e w' ->
        isinstance_Exception e = false
        \/ exists w0 q,
             at_run_pause w0 /\ asyncio_sleep env w0 q = Some e
             /\ w' = emit (EvSleep q) w0)
  /\ (step_failures_only env -> pause_failures_only env -> run_pauses_return env ->
      exists wn w',
        run env self n w = Looping wn
        /\ run_iteration env self wn = (Ret tt, w')
        /\ run env self (S n) w = Looping w').
Proof.
  split; [|split].
  - intros wn e w1 Hn Hs He w2.
    pose proof (run_iteration_after_escape _ _ _ _ _ Hs He) as Hit. fold w2 in Hit.
    unfold bind, sleep, ret in Hit.
    assert (H1 : run env self (S n) w
                 = match asyncio_sleep env w2 (inject_Z 60) with
                   | None => Looping (emit (EvSleep (inject_Z 60)) w2)
                   | Some e' => Exited e' (emit (EvSleep (inject_Z 60)) w2)
                   end).
    { rewrite run_S, Hn, Hit. destruct (asyncio_sleep env w2 _); reflexivity. }
    split; [exact H1|]. split.
    + rewrite H1. destruct (asyncio_sleep env w2 _); cbn [world_of];
        subst w2; cbn [trace emit]; rewrite <- app_assoc; reflexivity.
    + intros Hsleep p ps Hp. rewrite Hsleep in H1.
      destruct (sw_run_iteration env self p ps Hp (emit (EvSleep (inject_Z 60)) w2))
        as (rest & Hrest).
      exists rest. rewrite run_S, H1.
      assert (Hw : trace (world_of
                    match run_iteration env self (emit (EvSleep (inject_Z 60)) w2) with
                    | (Ret _, w') => Looping w'
                    | (Raise e0, w') => Exited e0 w'
                    end)
                   = trace (snd (run_iteration env self
                                   (emit (EvSleep (inject_Z 60)) w2)))).
      { destruct (run_iteration env self (emit (EvSleep (inject_Z 60)) w2))
          as [[[]|e0] w']; reflexivity. }
      rewrite Hw, Hrest. subst w2. cbn [trace emit].
      rewrite <- !app_assoc. reflexivity.
  - intros e w'. apply run_exit_cause.
  - intros Henv Hp Hrun.
    destruct (run_keeps_looping env self n w Henv Hp Hrun) as (wn & Hn).
    destruct (run_iteration_returns env self wn Henv Hp Hrun) as (w' & Hturn).
    exists wn, w'. split; [exact Hn|]. split; [exact Hturn|].
    rewrite run_S, Hn, Hturn. reflexivity.
Qed.

Lemma restless_failures : step_failures_only restless.
Proof. split; cbn; discriminate. Qed.

Lemma restless_pause_failures : pause_failures_only restless.
Proof.
  intros w q e. cbn. destruct (last (trace w)) as [[]|]; try discriminate;
    intros [= <-]; reflexivity.
Qed.

Lemma restless_run_pauses : run_pauses_return restless.
Proof. intros w q [H|[e H]]; cbn; rewrite H; reflexivity. Qed.

Lemma escaped_error_restarts_sweep_witness :
  run restless two_pairs 1 empty_world
  = Looping
      (emit (EvSleep (inject_Z 60))
         (emit (EvLog WARNING "Got error while executing step: event loop is closed")
            (snd (_run_step restless two_pairs
                    (emit (EvLog INFO "Started") empty_world)))))
  /\ exists wn w',
       run restless two_pairs 3 empty_world = Looping wn
       /\ run_iteration restless two_pairs wn = (Ret tt, w')
       /\ run restless two_pairs 4 empty_world = Looping w'.
Proof.
  split.
  - exact (proj1 (proj1 (escaped_error_restarts_sweep restless two_pairs 0 empty_world)
                    (emit (EvLog INFO "Started") empty_world)
                    (Exn RuntimeError "event loop is closed")
                    (snd (_run_step restless two_pairs
                            (emit (EvLog INFO "Started") empty_world)))
                    eq_refl eq_refl eq_refl)).
  - apply (proj2 (proj2 (escaped_error_restarts_sweep restless two_pairs 3 empty_world))
             restless_failures restless_pause_failures restless_run_pauses).
Defined.

(** The limit of both guards: [asyncio.CancelledError] derives from
    [BaseException] only, so neither [except Exception] catches it and it
    leaves [run] during the first fetch. *)
Example cancellation_leaves_run :
  run cancelled two_pairs 1 empty_world
  = Exited (Exn CancelledError "")
      {| fs := ∅;
         trace := [EvLog INFO "Started"; EvTime;
                   EvGet "/dex/rest/geo/map"
                     [("type", PyStr "BETU"); ("area", PyStr "de");
                      ("day", PyInt 0); ("lang", PyStr "en")]] |}.
Proof. reflexivity. Qed.

(** * Further properties *)

(** strftime on a year below 1000, as glibc renders it. *)
Example label_year_999 :
  label Birch {| year := 999; month := 3; day := 5; hour := 0; minute := 0; second := 0 |}
  = "999-03-05 Birch".
Proof. reflexivity. Qed.

(** ** The pace of a sweep *)

Section Pace.

Context (env : Env) (self : Collector).

Lemma pace_app (tr1 tr2 : list event) : pace (tr1 ++ tr2) = (pace tr1 ++ pace tr2)%list.
Proof. apply omap_app. Qed.

Lemma step_pace (area : Area) (type : AllergyType) (w : World) :
  pace (trace (snd (step env self type area w)))
  = (pace (trace w)
     ++ [EvGet (fst (request_of (area, type))) (snd (request_of (area, type)))])%list.
Proof.
  unfold step, get_data, save_image, bind, assert_, client_get, now_, mkdir, lift,
    draw_on_image, open_wb, write, ret, raise.
  cbn [Z.leb Z.compare andb].
  destruct (http_get env w _ _) as [e|r]; cbn [snd trace emit].
  { rewrite pace_app. reflexivity. }
  destruct (Path_mkdir env _ _);
    [cbn [snd trace emit]; rewrite !pace_app; cbn; rewrite ?app_nil_r; reflexivity|].
  destruct (Image_open env _);
    [cbn [snd trace emit]; rewrite !pace_app; cbn; rewrite ?app_nil_r; reflexivity|].
  destruct (aiofiles_open env _ _);
    [cbn [snd trace emit]; rewrite !pace_app; cbn; rewrite ?app_nil_r; reflexivity|].
  destruct (file_write env _ _ _);
    cbn [snd trace emit set_file]; rewrite !pace_app; cbn; rewrite ?app_nil_r;
    reflexivity.
Qed.

(** A guarded step shows its request and then, unless the step was left by
    an exception the guard does not catch, the pause of 5 seconds. *)
Lemma guarded_step_pace (area : Area) (type : AllergyType) (w : World) :
  let rq := EvGet (fst (request_of (area, type))) (snd (request_of (area, type))) in
  (pace (trace (snd (guarded_step env self area type w)))
   = (pace (trace w) ++ [rq; EvSleep (inject_Z 5)])%list)
  \/ (pace (trace (snd (guarded_step env self area type w)))
      = (pace (trace w) ++ [rq])%list
      /\ exists e, fst (guarded_step env self area type w) = Raise e).
Proof.
  intros rq. pose proof (step_pace area type w) as Hp. fold rq in Hp.
  destruct (step env self type area w) as [[[]|e] w1] eqn:Hs; cbn [snd] in Hp.
  - left. rewrite (guarded_step_Ret _ _ _ _ _ _ Hs), trace_sleep, pace_app, Hp.
    rewrite <- app_assoc. reflexivity.
  - destruct (isinstance_Exception e) eqn:He.
    + left. rewrite (guarded_step_caught _ _ _ _ _ _ _ Hs He), trace_sleep, pace_app.
      cbn [trace emit]. rewrite pace_app, Hp. cbn. rewrite app_nil_r, <- app_assoc.
      reflexivity.
    + right. rewrite (guarded_step_escapes _ _ _ _ _ _ _ Hs He).
      split; [exact Hp|]. exists e. reflexivity.
Qed.

Lemma turns_pace (ps : list (Area * AllergyType)) (w : World) :
  (exists k, pace (trace (snd (for_each ps (turn env self) w)))
             = (pace (trace w) ++ take k (full_pace ps))%list)
  /\ (forall w', for_each ps (turn env self) w = (Ret tt, w') ->
        pace (trace w') = (pace (trace w) ++ full_pace ps)%list).
Proof.
  revert w. induction ps as [|[a t] ps IH]; intros w.
  { split.
    - exists 0%nat. cbn. rewrite app_nil_r. reflexivity.
    - intros w' [= <-]. cbn. rewrite app_nil_r. reflexivity. }
  unfold full_pace. rewrite bind_cons. fold (full_pace ps).
  cbn [for_each]. unfold bind.
  change (turn env self (a, t)) with (guarded_step env self a t).
  pose proof (guarded_step_pace a t w) as Hg. cbv zeta in Hg.
  destruct (guarded_step env self a t w) as [[[]|e] w1] eqn:Hturn; cbn [snd fst] in *.
  - destruct Hg as [Hg|[_ [e He]]]; [|discriminate].
    destruct (IH w1) as [[k Hk] Hfull]. split.
    + exists (2 + k)%nat. rewrite Hk, Hg. cbn [take app Nat.add].
      rewrite <- app_assoc. reflexivity.
    + intros w' Hret. rewrite (Hfull w' Hret), Hg, <- app_assoc. reflexivity.
  - split; [|discriminate].
    destruct Hg as [Hg|[Hg _]].
    + exists 2%nat. rewrite Hg. reflexivity.
    + exists 1%nat. rewrite Hg. reflexivity.
Qed.

End Pace.

Lemma pauses_of_pace (tr : list event) : pauses (pace tr) = pauses tr.
Proof.
  induction tr as [|ev tr IH]; [reflexivity|].
  change (ev :: tr) with ([ev] ++ tr)%list.
  rewrite pace_app, !pauses_app, IH. destruct ev; reflexivity.
Qed.

Lemma pauses_full_pace (ps : list (Area * AllergyType)) :
  pauses (full_pace ps) = replicate (length ps) (inject_Z 5).
Proof.
  induction ps as [|p ps IH]; [reflexivity|].
  unfold full_pace. rewrite bind_cons. fold (full_pace ps).
  rewrite pauses_app, IH. reflexivity.
Qed.

Lemma length_row {A B} (a : A) (ys : list B) :
  length (b ← ys; [(a, b)]) = length ys.
Proof.
  induction ys as [|y ys IH]; [reflexivity|].
  rewrite bind_cons. cbn. f_equal. exact IH.
Qed.

Lemma length_pairs (self : Collector) :
  length (pairs self) = (length (areas self) * length (types self))%nat.
Proof.
  unfold pairs. induction (areas self) as [|a l IH]; [reflexivity|].
  rewrite bind_cons, length_app, IH, length_row. reflexivity.
Qed.

(** X1. Whatever fails, what a sweep shows the server is an initial part of:
    the request of the first pair, a pause of 5 seconds, the request of
    the second pair, a pause of 5 seconds, and so on in the order of the two
    loops; and a sweep that returns has shown all of it: every pair
    exactly once, each followed by its pause, the last one included. *)
Theorem sweep_pace (env : Env) (self : Collector) (w0 : World) :
  (exists k, pace (trace (snd (_run_step env self w0)))
             = (pace (trace w0) ++ take k (full_pace (pairs self)))%list)
  /\ (forall d w', _run_step env self w0 = (Ret d, w') ->
        pace (trace w') = (pace (trace w0) ++ full_pace (pairs self))%list
        /\ pauses (trace w')
           = (pauses (trace w0)
              ++ replicate (length (areas self) * length (types self))
                   (inject_Z 5))%list).
Proof.
  rewrite _run_step_sweep. unfold sweep.
  destruct (turns_pace env self (pairs self) (emit EvTime w0)) as [[k Hk] Hfull].
  assert (Hstart : pace (trace (emit EvTime w0)) = pace (trace w0)).
  { cbn [trace emit]. rewrite pace_app. cbn. apply app_nil_r. }
  rewrite Hstart in *.
  destruct (for_each (pairs self) (turn env self) (emit EvTime w0))
    as [[[]|e] w1] eqn:Hsweep; cbn [snd] in *.
  - assert (Hend : pace (trace (emit EvTime w1))
                   = (pace (trace w0) ++ full_pace (pairs self))%list).
    { cbn [trace emit]. rewrite pace_app, (Hfull w1 eq_refl). cbn. apply app_nil_r. }
    split.
    + exists (length (full_pace (pairs self))). rewrite firstn_all. exact Hend.
    + intros d w' [= _ <-]. split; [exact Hend|].
      rewrite <- (pauses_of_pace (trace (emit EvTime w1))), Hend, pauses_app.
      rewrite pauses_of_pace, pauses_full_pace, length_pairs. reflexivity.
  - split; [exists k; exact Hk|discriminate].
Qed.

Lemma sweep_pace_witness :
  pace (trace (snd (_run_step calm two_pairs empty_world)))
  = [EvGet "/dex/rest/geo/map"
       [("type", PyStr "BETU"); ("area", PyStr "de"); ("day", PyInt 0);
        ("lang", PyStr "en")];
     EvSleep (inject_Z 5);
     EvGet "/dex/rest/geo/map"
       [("type", PyStr "BETU"); ("area", PyStr "fr"); ("day", PyInt 0);
        ("lang", PyStr "en")];
     EvSleep (inject_Z 5)].
Proof.
  apply (proj2 (sweep_pace calm two_pairs empty_world)
           (inject_Z 13 - inject_Z 0)%Q (snd (_run_step calm two_pairs empty_world))).
  vm_compute. reflexivity.
Defined.

(** ** Exceptions neither guard catches *)

(** X2. An exception that is not an instance of [Exception] (a
    cancellation, a keyboard interrupt) and is raised by the step of a pair
    the sweep has reached passes both guards: the sweep, the turn of the
    loop and [run] are left with that exception in the very world in which
    the step raised it, so nothing is logged, no pause is taken and no later
    pair is fetched. *)
Theorem uncaught_exception_leaves_run (env : Env) (self : Collector) (w0 wb w1 : World)
  (pre post : list (Area * AllergyType)) (area : Area) (type : AllergyType) (e : exn) :
  pairs self = (pre ++ (area, type) :: post)%list ->
  for_each pre (turn env self) (emit EvTime w0) = (Ret tt, wb) ->
  step env self type area wb = (Raise e, w1) ->
  isinstance_Exception e = false ->
  _run_step env self w0 = (Raise e, w1)
  /\ run_iteration env self w0 = (Raise e, w1)
  /\ forall n, while_True (S n) (run_iteration env self) w0 = Exited e w1.
Proof.
  intros Hsplit Hpre Hs He.
  assert (Hsweep : _run_step env self w0 = (Raise e, w1)).
  { rewrite _run_step_sweep. unfold sweep. rewrite Hsplit, for_each_app.
    rewrite (bind_Ret _ _ _ _ tt Hpre). cbn [for_each].
    rewrite (bind_Raise (turn env self (area, type)) _ wb w1 e); [reflexivity|].
    apply guarded_step_escapes; assumption. }
  pose proof (run_iteration_uncaught _ _ _ _ _ Hsweep He) as Hturn.
  split; [exact Hsweep|]. split; [exact Hturn|].
  intros n. cbn [while_True]. rewrite Hturn. reflexivity.
Qed.

Lemma uncaught_exception_leaves_run_witness :
  while_True 3 (run_iteration cancelled two_pairs) empty_world
  = Exited (Exn CancelledError "")
      (snd (step cancelled two_pairs Birch Germany (emit EvTime empty_world))).
Proof.
  apply (proj2 (proj2 (uncaught_exception_leaves_run cancelled two_pairs empty_world
           (emit EvTime empty_world)
           (snd (step cancelled two_pairs Birch Germany (emit EvTime empty_world)))
           [] [(France, Birch)] Germany Birch (Exn CancelledError "")
           eq_refl eq_refl eq_refl eq_refl)) 2%nat).
Defined.

(** ** Every turn ends in a pause *)

(** X3. A turn of the loop that returns has ended in a call of
    [asyncio.sleep], right after one log line: after a sweep that returned
    its duration [d], the line of success and the daily pause of
    [86400 - d]; after a sweep left by an instance of [Exception], the
    warning and the pause of 60 seconds.  The loop never goes from one sweep
    into the next without one of the two. *)
Theorem turn_ends_in_pause (env : Env) (self : Collector) (w w' : World) :
  run_iteration env self w = (Ret tt, w') ->
  (exists d w1,
     _run_step env self w = (Ret d, w1)
     /\ trace w' = (trace w1 ++ [EvLog INFO "Successfully fetched todays data";
                                 EvSleep (daily_delay d)])%list)
  \/ (exists e w1,
        _run_step env self w = (Raise e, w1)
        /\ isinstance_Exception e = true
        /\ trace w' = (trace w1
                       ++ [EvLog WARNING ("Got error while executing step: "
                                          ++ str_exn e);
                           EvSleep (inject_Z 60)])%list).
Proof.
  intros Hturn.
  destruct (_run_step env self w) as [[d|e] w1] eqn:Hs.
  - left. exists d, w1. split; [reflexivity|].
    rewrite (run_iteration_after_sweep _ _ _ _ _ Hs) in Hturn.
    pose proof (trace_sleep env (daily_delay d)
                  (emit (EvLog INFO "Successfully fetched todays data") w1)) as Htr.
    rewrite Hturn in Htr. cbn [snd trace emit] in Htr.
    rewrite Htr, <- app_assoc. reflexivity.
  - destruct (isinstance_Exception e) eqn:He.
    + right. exists e, w1. split; [reflexivity|]. split; [exact He|].
      rewrite (run_iteration_after_escape _ _ _ _ _ Hs He) in Hturn.
      unfold bind, sleep, ret in Hturn.
      destruct (asyncio_sleep env _ _); [discriminate|].
      injection Hturn as <-. cbn [trace emit]. rewrite <- app_assoc. reflexivity.
    + rewrite (run_iteration_uncaught _ _ _ _ _ Hs He) in Hturn. discriminate.
Qed.

Lemma turn_ends_in_pause_witness :
  (exists d w1,
     _run_step calm two_pairs empty_world = (Ret d, w1)
     /\ trace (snd (run_iteration calm two_pairs empty_world))
        = (trace w1 ++ [EvLog INFO "Successfully fetched todays data";
                        EvSleep (daily_delay d)])%list)
  \/ (exists e w1,
        _run_step calm two_pairs empty_world = (Raise e, w1)
        /\ isinstance_Exception e = true
        /\ trace (snd (run_iteration calm two_pairs empty_world))
           = (trace w1
              ++ [EvLog WARNING ("Got error while executing step: " ++ str_exn e);
                  EvSleep (inject_Z 60)])%list).
Proof.
  apply (turn_ends_in_pause calm two_pairs empty_world
           (snd (run_iteration calm two_pairs empty_world))).
  vm_compute. reflexivity.
Defined.

(** ** More on the store *)

Lemma fspath_file_of_base (self : ImageCollection) (type : AllergyType) (area : Area)
  (now : datetime) :
  names (base_path self) <> [] ->
  fspath (file_of self type area now)
  = fspath (base_path self) ++ "/" ++ name type ++ "/" ++ name area ++ "/"
    ++ str (year now) ++ "/" ++ str (month now) ++ "/" ++ str (day now) ++ ".png".
Proof.
  intros Hbase. rewrite fspath_file_of.
  rewrite fspath_truediv by apply truediv_names_nonempty.
  rewrite fspath_truediv by apply truediv_names_nonempty.
  rewrite fspath_truediv by exact Hbase.
  rewrite !append_assoc. reflexivity.
Qed.

(** The label, hence the stamped image, reads the date of the moment only. *)
Lemma stamped_same_date (env : Env) (type : AllergyType) (now now' : datetime)
  (content : bytes) (sz : Z * Z) :
  year now = year now' -> month now = month now' -> day now = day now' ->
  stamped env type now content sz = stamped env type now' content sz.
Proof.
  intros Hy Hm Hd. unfold stamped, label, strftime_Y_m_d. rewrite Hy, Hm, Hd.
  reflexivity.
Qed.

(** X4. Storing the same bytes twice on the same day is idempotent: once
    both stores have returned, the files are exactly those the first store
    left, whatever the time of day of the second. *)
Theorem store_idempotent (env : Env) (self : ImageCollection) (content : bytes)
  (type : AllergyType) (area : Area) (w w1 w2 : World) :
  save_image env self content type area w = (Ret tt, w1) ->
  save_image env self content type area w1 = (Ret tt, w2) ->
  year (datetime_now env w) = year (datetime_now env w1) ->
  month (datetime_now env w) = month (datetime_now env w1) ->
  day (datetime_now env w) = day (datetime_now env w1) ->
  fs w2 = fs w1.
Proof.
  intros H1 H2 Hy Hm Hd.
  destruct (save_image_Ret _ _ _ _ _ _ _ H1) as (sz1 & Hopen1 & Hfs1).
  destruct (save_image_Ret _ _ _ _ _ _ _ H2) as (sz2 & Hopen2 & Hfs2).
  assert (sz2 = sz1) as -> by congruence.
  rewrite Hfs2, Hfs1.
  rewrite (stamped_same_date env type _ _ content sz1 Hy Hm Hd).
  replace (file_of self type area (datetime_now env w))
    with (file_of self type area (datetime_now env w1))
    by (unfold file_of, folder_of; rewrite Hy, Hm, Hd; reflexivity).
  apply insert_insert_eq.
Qed.

Lemma store_idempotent_witness :
  fs (snd (save_image calm archive sample_body Birch Germany
             (snd (save_image calm archive sample_body Birch Germany empty_world))))
  = fs (snd (save_image calm archive sample_body Birch Germany empty_world)).
Proof.
  apply (store_idempotent calm archive sample_body Birch Germany empty_world
           (snd (save_image calm archive sample_body Birch Germany empty_world))
           (snd (save_image calm archive sample_body Birch Germany
                   (snd (save_image calm archive sample_body Birch Germany
                           empty_world)))));
    reflexivity.
Defined.

(** X5. The file a returning store leaves and the label inside it agree,
    for a clock in a year of four digits (1000 to 9999): the file at base/type name/area name/year/month/day.png holds the
    encoding of an RGBA image decoded from the stored content whose one
    text is that same date as YYYY-MM-DD, a space, and that same type
    name.  Both come from the one reading of the clock the store makes. *)
Theorem stored_label_matches_path (env : Env) (self : ImageCollection)
  (content : bytes) (type : AllergyType) (area : Area) (w w' : World) :
  save_image env self content type area w = (Ret tt, w') ->
  valid_date (datetime_now env w) ->
  names (base_path self) <> [] ->
  exists img,
    fs w' !! (fspath (base_path self) ++ "/" ++ name type ++ "/" ++ name area ++ "/"
              ++ str (year (datetime_now env w)) ++ "/"
              ++ str (month (datetime_now env w)) ++ "/"
              ++ str (day (datetime_now env w)) ++ ".png")
    = Some (Image_save env img)
    /\ texts_drawn img
       = [YYYY_MM_DD (year (datetime_now env w)) (month (datetime_now env w))
            (day (datetime_now env w)) ++ " " ++ name type]
    /\ decoded_from img = content
    /\ mode img = "RGBA".
Proof.
  intros H Hv Hbase.
  destruct (save_image_Ret _ _ _ _ _ _ _ H) as (sz & _ & Hfs).
  exists (stamped env type (datetime_now env w) content sz).
  rewrite <- (fspath_file_of_base self type area _ Hbase), Hfs.
  split; [apply lookup_insert_eq|].
  unfold texts_drawn, stamped.
  destruct (font_getbbox env (label type (datetime_now env w))) as [[[b0 b1] b2] b3].
  cbn. unfold label. rewrite (strftime_is_YYYY_MM_DD _ Hv).
  split; [reflexivity|]. split; reflexivity.
Qed.

Lemma stored_label_matches_path_witness :
  exists img,
    fs (snd (save_image calm archive sample_body Birch Germany empty_world))
       !! "keker/Birch/Germany/2024/3/5.png"
    = Some (Image_save calm img)
    /\ texts_drawn img = ["2024-03-05 Birch"]
    /\ decoded_from img = sample_body
    /\ mode img = "RGBA".
Proof.
  apply (stored_label_matches_path calm archive sample_body Birch Germany empty_world
           (snd (save_image calm archive sample_body Birch Germany empty_world))).
  - reflexivity.
  - unfold valid_date. cbn. lia.
  - discriminate.
Defined.

(** X6. A response body that does not decode as an image is never
    stored, whatever the status of the response: [get_data] hands the body
    on, the store reads the clock and creates the folder of the day, and the
    step is then left by an exception (that of the decoder when the folder
    could be created) with no file opened, written or changed. *)
Theorem undecodable_body_stores_nothing (env : Env) (self : Collector)
  (type : AllergyType) (area : Area) (w : World) (r : Response) (e : exn) :
  http_get env w (fst (request_of (area, type))) (snd (request_of (area, type)))
  = inr r ->
  Image_open env (content r) = inl e ->
  let w1 := emit EvNow
              (emit (EvGet (fst (request_of (area, type)))
                       (snd (request_of (area, type)))) w) in
  let folder := folder_of (image_collection self) type area (datetime_now env
                  (emit (EvGet (fst (request_of (area, type)))
                           (snd (request_of (area, type)))) w)) in
  exists e',
    step env self type area w = (Raise e', emit (EvMkdir (fspath folder)) w1)
    /\ fs (emit (EvMkdir (fspath folder)) w1) = fs w
    /\ (Path_mkdir env w1 folder = None -> e' = e).
Proof.
  intros Hhttp Hopen. cbv zeta. cbn [request_of fst snd] in *. unfold step.
  pose proof (get_data_transport env type area 0 "en" w ltac:(lia)) as Hget.
  cbv zeta in Hget. rewrite Hhttp in Hget.
  rewrite (bind_Ret _ _ _ _ _ Hget).
  unfold save_image, bind, now_, mkdir, lift, draw_on_image, raise, ret.
  destruct (Path_mkdir env _ _) as [em|] eqn:Hmk.
  - exists em. split; [reflexivity|]. split; [reflexivity|].
    intros Hnone. rewrite Hnone in Hmk. discriminate.
  - rewrite Hopen. exists e. split; [reflexivity|]. split; reflexivity.
Qed.

Lemma undecodable_body_stores_nothing_witness :
  exists e',
    step error_page two_pairs Birch Germany empty_world
    = (Raise e',
       {| fs := ∅;
          trace := [EvGet "/dex/rest/geo/map"
                      [("type", PyStr "BETU"); ("area", PyStr "de");
                       ("day", PyInt 0); ("lang", PyStr "en")];
                    EvNow; EvMkdir "keker/Birch/Germany/2024/3"] |})
    /\ e' = Exn UnidentifiedImageError "cannot identify image file".
Proof.
  destruct (undecodable_body_stores_nothing error_page two_pairs Birch Germany
              empty_world {| status_code := 404; content := other_body |}
              (Exn UnidentifiedImageError "cannot identify image file")
              eq_refl eq_refl) as (e' & Hstep & _ & He).
  exists e'. split; [exact Hstep|]. apply He. reflexivity.
Defined.

(** ** What the program leaves alone *)

Section Advances.

Context (R : World -> World -> Prop).
Context (R_refl : forall w, R w w).
Context (R_trans : forall w1 w2 w3, R w1 w2 -> R w2 w3 -> R w1 w3).

Lemma adv_ret {A} (a : A) : advances R (ret a).
Proof. intros w. apply R_refl. Qed.

Lemma adv_bind {A B} (m : M A) (k : A -> M B) :
  advances R m -> (forall a, advances R (k a)) -> advances R (bind m k).
Proof.
  intros Hm Hk w. unfold bind. pose proof (Hm w) as H1.
  destruct (m w) as [[a|e] w1]; cbn [snd] in *; [|exact H1].
  exact (R_trans _ _ _ H1 (Hk a w1)).
Qed.

Lemma adv_try {A} (m : M A) (h : exn -> M A) :
  advances R m -> (forall e, advances R (h e)) -> advances R (try_except_Exception m h).
Proof.
  intros Hm Hh w. unfold try_except_Exception. pose proof (Hm w) as H1.
  destruct (m w) as [[a|e] w1]; cbn [snd] in *; [exact H1|].
  destruct (isinstance_Exception e); [|exact H1].
  exact (R_trans _ _ _ H1 (Hh e w1)).
Qed.

Lemma adv_for_each {A} (xs : list A) (body : A -> M unit) :
  (forall x, x ∈ xs -> advances R (body x)) -> advances R (for_each xs body).
Proof.
  induction xs as [|x xs IH]; intros Hb; cbn [for_each].
  - apply adv_ret.
  - apply adv_bind.
    + apply Hb. left.
    + intros _. apply IH. intros y Hy. apply Hb. right. exact Hy.
Qed.

Lemma adv_while_True (n : nat) (body : M unit) (w : World) :
  advances R body -> R w (world_of (while_True n body w)).
Proof.
  intros Hb. revert w. induction n as [|n IH]; intros w; cbn [while_True].
  - apply R_refl.
  - pose proof (Hb w) as H1.
    destruct (body w) as [[[]|e] w1]; cbn [snd world_of] in *; [|exact H1].
    exact (R_trans _ _ _ H1 (IH w1)).
Qed.

End Advances.

Section Confinement.

Context (env : Env) (allowed : string -> Prop).

Lemma files_kept_refl (w : World) : files_kept allowed w w.
Proof. intros p. split; [tauto|reflexivity]. Qed.

Lemma files_kept_trans (w1 w2 w3 : World) :
  files_kept allowed w1 w2 -> files_kept allowed w2 w3 -> files_kept allowed w1 w3.
Proof.
  intros H12 H23 p. destruct (H12 p) as [Ha Hb]. destruct (H23 p) as [Hc Hd].
  split; [tauto|]. intros Hp. rewrite (Hd Hp). exact (Hb Hp).
Qed.

Lemma files_kept_same (w w' : World) : fs w' = fs w -> files_kept allowed w w'.
Proof. intros H p. rewrite H. split; [tauto|reflexivity]. Qed.

Lemma files_kept_set (w w' : World) (p : string) (data : bytes) :
  allowed p -> fs w' = <[p := data]> (fs w) -> files_kept allowed w w'.
Proof.
  intros Hp H q. rewrite H. split.
  - intros Hq. apply lookup_insert_is_Some. destruct (decide (p = q)); auto.
  - intros Hq. apply lookup_insert_ne. intros ->. exact (Hq Hp).
Qed.

Lemma adv_log (lvl : level) (msg : string) :
  advances (files_kept allowed) (log lvl msg).
Proof. intros w. apply files_kept_same. reflexivity. Qed.

Lemma adv_time : advances (files_kept allowed) (time env).
Proof. intros w. apply files_kept_same. reflexivity. Qed.

Lemma adv_now : advances (files_kept allowed) (now_ env).
Proof. intros w. apply files_kept_same. reflexivity. Qed.

Lemma adv_sleep (q : Q) : advances (files_kept allowed) (sleep env q).
Proof.
  intros w. apply files_kept_same. unfold sleep.
  destruct (asyncio_sleep env w q); reflexivity.
Qed.

Lemma adv_mkdir (p : Path) : advances (files_kept allowed) (mkdir env p).
Proof.
  intros w. apply files_kept_same. unfold mkdir.
  destruct (Path_mkdir env w p); reflexivity.
Qed.

Lemma adv_lift {A} (r : exn + A) : advances (files_kept allowed) (lift r).
Proof. intros w. apply files_kept_same. destruct r; reflexivity. Qed.

Lemma adv_get_data (type : AllergyType) (area : Area) (day : Z) (lang : string) :
  advances (files_kept allowed) (get_data env type area day lang).
Proof.
  intros w. apply files_kept_same.
  unfold get_data, bind, assert_, client_get, ret, raise.
  destruct ((0 <=? day)%Z && (day <=? 2)%Z); [|reflexivity].
  destruct (http_get env w _ _); reflexivity.
Qed.

Lemma adv_open_wb (p : Path) :
  allowed (fspath p) -> advances (files_kept allowed) (open_wb env p).
Proof.
  intros Hp w. unfold open_wb. destruct (aiofiles_open env w p).
  - apply files_kept_same. reflexivity.
  - apply (files_kept_set _ _ (fspath p) []); [exact Hp|reflexivity].
Qed.

Lemma adv_write (p : Path) (data : bytes) :
  allowed (fspath p) -> advances (files_kept allowed) (write env p data).
Proof.
  intros Hp w. unfold write. destruct (file_write env w p data).
  - apply files_kept_same. reflexivity.
  - apply (files_kept_set _ _ (fspath p) data); [exact Hp|reflexivity].
Qed.

End Confinement.

Section Archive.

Context (env : Env) (self : Collector).

Let kept := files_kept (archive_file self).
Let kept_trans := files_kept_trans (archive_file self).
Let kept_refl := files_kept_refl (archive_file self).

Lemma adv_save_image (content : bytes) (type : AllergyType) (area : Area) :
  type ∈ types self -> area ∈ areas self ->
  advances kept (save_image env (image_collection self) content type area).
Proof.
  intros Ht Ha. unfold save_image.
  apply adv_bind; [exact kept_trans|apply adv_now|]. intros now.
  assert (Hfile : archive_file self
                    (fspath (file_of (image_collection self) type area now))).
  { exists type, area, now. split; [exact Ht|]. split; [exact Ha|reflexivity]. }
  apply adv_bind; [exact kept_trans|apply adv_mkdir|]. intros _.
  apply adv_bind; [exact kept_trans|apply adv_lift|]. intros image_bytes.
  apply adv_bind; [exact kept_trans|apply adv_open_wb; exact Hfile|]. intros _.
  apply adv_write. exact Hfile.
Qed.

Lemma adv_guarded_step (area : Area) (type : AllergyType) :
  type ∈ types self -> area ∈ areas self ->
  advances kept (guarded_step env self area type).
Proof.
  intros Ht Ha. unfold guarded_step, step.
  apply adv_bind; [exact kept_trans| |intros _; apply adv_sleep].
  apply adv_try; [exact kept_trans| |intros e; apply adv_log].
  apply adv_bind; [exact kept_trans|apply adv_get_data|].
  intros content. apply adv_save_image; assumption.
Qed.

Lemma adv__run_step : advances kept (_run_step env self).
Proof.
  unfold _run_step.
  apply adv_bind; [exact kept_trans|apply adv_time|]. intros cur_time.
  apply adv_bind; [exact kept_trans| |].
  - apply adv_for_each; [exact kept_refl|exact kept_trans|]. intros area Ha.
    apply adv_for_each; [exact kept_refl|exact kept_trans|]. intros type Ht.
    apply adv_guarded_step; assumption.
  - intros _. apply adv_bind; [exact kept_trans|apply adv_time|].
    intros t. apply adv_ret. exact kept_refl.
Qed.

Lemma adv_run_iteration : advances kept (run_iteration env self).
Proof.
  unfold run_iteration.
  apply adv_bind; [exact kept_trans| |].
  - apply adv_try; [exact kept_trans| |].
    + apply adv_bind; [exact kept_trans|apply adv__run_step|]. intros d.
      apply adv_bind; [exact kept_trans|apply adv_log|]. intros _.
      apply adv_ret. exact kept_refl.
    + intros e. apply adv_bind; [exact kept_trans|apply adv_log|]. intros _.
      apply adv_bind; [exact kept_trans|apply adv_sleep|]. intros _.
      apply adv_ret. exact kept_refl.
  - intros [d|]; [apply adv_sleep|apply adv_ret; exact kept_refl].
Qed.

End Archive.

(** X7. However long [run] has been looping and however it was left, it
    has removed no file, and it has created or changed no file other than
    the files of its own pairs (base/type name/area name/y/m/d.png for a
    configured type and area).  The same holds of the whole program from
    start-up on. *)
Theorem archive_confinement (env : Env) (self : Collector) (n : nat) (w : World) :
  files_kept (archive_file self) w (world_of (run env self n w))
  /\ forall parse,
       files_kept (archive_file (shipped (parse "keker"))) w
         (world_of (main env parse n w)).
Proof.
  assert (Hrun : forall c w0, files_kept (archive_file c) w0 (world_of (run env c n w0))).
  { intros c w0. unfold run.
    apply (files_kept_trans _ _ (emit (EvLog INFO "Started") w0));
      [apply files_kept_same; reflexivity|].
    apply adv_while_True;
      [apply files_kept_refl|apply files_kept_trans|apply adv_run_iteration]. }
  split; [apply Hrun|].
  intros parse. unfold main, Collector_init, ImageCollection_init, bind, mkdir, ret.
  cbn [base_path].
  destruct (Path_mkdir env w (parse "keker")); cbn [world_of].
  - apply files_kept_same. reflexivity.
  - eapply files_kept_trans; [|apply Hrun]. apply files_kept_same. reflexivity.
Qed.

Lemma archive_confinement_witness :
  fs (world_of (run germany_down two_pairs 2
                  {| fs := {["notes.txt" := sample_body]}; trace := [] |}))
     !! "notes.txt" = Some sample_body.
Proof.
  rewrite (proj2 (proj1 (archive_confinement germany_down two_pairs 2 _) "notes.txt")).
  - reflexivity.
  - intros (type & area & now & _ & _ & H). revert H.
    unfold two_pairs, archive. rewrite fspath_file_of_base by discriminate.
    cbn [image_collection base_path fspath names root String.concat].
    discriminate.
Defined.

(** ** One file per type, area and day *)

Lemma append_inv_head (s t u : string) : s ++ t = s ++ u -> t = u.
Proof.
  induction s as [|a s IH]; [trivial|].
  rewrite !append_cons. intros [= H]. exact (IH H).
Qed.

(** Two strings free of a separator, each followed by the separator, can
    only agree if they are the same strings followed by the same rest. *)
Lemma absent_sep_inj (c : ascii) (s s' r r' : string) :
  absent c s -> absent c s' ->
  s ++ String c r = s' ++ String c r' -> s = s' /\ r = r'.
Proof.
  revert s'. induction s as [|a s IH]; intros [|a' s'] Hs Hs'.
  - intros [= ->]. split; reflexivity.
  - rewrite append_cons. intros [= -> _]. destruct Hs' as [Hne _]. congruence.
  - rewrite append_cons. intros [= -> _]. destruct Hs as [Hne _]. congruence.
  - rewrite !append_cons. intros [= -> H].
    destruct Hs as [_ Hs], Hs' as [_ Hs'].
    destruct (IH s' Hs Hs' H) as [-> ->]. split; reflexivity.
Qed.

Lemma absent_uint (c : ascii) (d : Decimal.uint) :
  (forall k, (k < 10)%nat -> c <> ascii_of_nat (48 + k)) ->
  absent c (NilEmpty.string_of_uint d).
Proof.
  intros Hc. induction d; cbn [NilEmpty.string_of_uint absent];
    [exact I|split; [|assumption]..]; intros <-.
  - exact (Hc 0%nat ltac:(lia) eq_refl).
  - exact (Hc 1%nat ltac:(lia) eq_refl).
  - exact (Hc 2%nat ltac:(lia) eq_refl).
  - exact (Hc 3%nat ltac:(lia) eq_refl).
  - exact (Hc 4%nat ltac:(lia) eq_refl).
  - exact (Hc 5%nat ltac:(lia) eq_refl).
  - exact (Hc 6%nat ltac:(lia) eq_refl).
  - exact (Hc 7%nat ltac:(lia) eq_refl).
  - exact (Hc 8%nat ltac:(lia) eq_refl).
  - exact (Hc 9%nat ltac:(lia) eq_refl).
Qed.

(** [str n] holds digits and at most a leading minus sign. *)
Lemma absent_str (c : ascii) (n : Z) :
  c <> "-"%char -> (forall k, (k < 10)%nat -> c <> ascii_of_nat (48 + k)) ->
  absent c (str n).
Proof.
  intros Hm Hc. unfold str, NilZero.string_of_int, NilZero.string_of_uint.
  assert (H0 : absent c "0").
  { split; [|exact I]. intros <-. exact (Hc 0%nat ltac:(lia) eq_refl). }
  destruct (Z.to_int n) as [d|d].
  - destruct d; try exact H0; apply (absent_uint c _ Hc).
  - split; [congruence|]. destruct d; try exact H0; apply (absent_uint c _ Hc).
Qed.

Lemma not_a_digit (c : ascii) :
  (nat_of_ascii c < 48 \/ 57 < nat_of_ascii c)%nat ->
  forall k, (k < 10)%nat -> c <> ascii_of_nat (48 + k).
Proof.
  intros Hc k Hk ->. rewrite nat_ascii_embedding in Hc by lia. lia.
Qed.

Lemma absent_slash_str (n : Z) : absent "/" (str n).
Proof. apply absent_str; [discriminate|apply not_a_digit; left; vm_compute; lia]. Qed.

Lemma absent_dot_str (n : Z) : absent "." (str n).
Proof. apply absent_str; [discriminate|apply not_a_digit; left; vm_compute; lia]. Qed.

(** [int(str(n)) == n]: the decimal rendering reads back as the number. *)
Lemma int_of_str (n : Z) :
  option_map Z.of_int (NilZero.int_of_string (str n)) = Some n.
Proof.
  unfold str. rewrite NilZero.isi.
  - cbn [option_map]. rewrite DecimalZ.of_to. reflexivity.
  - destruct n; cbn; intros [= H]; try discriminate H;
      exact (Unsigned.to_uint_nonnil _ H).
  - destruct n; cbn; intros [= H]; exact (Unsigned.to_uint_nonnil _ H).
Qed.

Lemma str_inj (n n' : Z) : str n = str n' -> n = n'.
Proof.
  intros H. pose proof (int_of_str n) as H1. rewrite H, int_of_str in H1.
  congruence.
Qed.

Lemma absent_slash_name_type (type : AllergyType) : absent "/" (name type).
Proof. destruct type; cbn; repeat split; discriminate. Qed.

Lemma absent_slash_name_area (area : Area) : absent "/" (name area).
Proof. destruct area; cbn; repeat split; discriminate. Qed.

Lemma name_type_inj (t t' : AllergyType) : name t = name t' -> t = t'.
Proof. destruct t, t'; cbn; intros H; first [reflexivity|discriminate H]. Qed.

Lemma name_area_inj (a a' : Area) : name a = name a' -> a = a'.
Proof. destruct a, a'; cbn; intros H; first [reflexivity|discriminate H]. Qed.

Lemma concat_app_cons (sep : string) (l : list string) (x : string) (r : list string) :
  String.concat sep (l ++ x :: r)
  = match l with
    | [] => ""
    | _ => String.concat sep l ++ sep
    end ++ String.concat sep (x :: r).
Proof.
  induction l as [|y l IH]; [reflexivity|].
  destruct l as [|z l].
  - cbn [app]. change (String.concat sep (y :: x :: r))
      with (y ++ sep ++ String.concat sep (x :: r)).
    rewrite append_assoc. reflexivity.
  - change (String.concat sep ((y :: z :: l) ++ x :: r))
      with (y ++ sep ++ String.concat sep ((z :: l) ++ x :: r)).
    rewrite IH.
    change (String.concat sep (y :: z :: l)) with (y ++ sep ++ String.concat sep (z :: l)).
    rewrite !append_assoc. reflexivity.
Qed.

(** The rendered path of a file: a prefix that depends on the base only,
    then the five components. *)
Lemma fspath_file_of_components (self : ImageCollection) (type : AllergyType)
  (area : Area) (now : datetime) :
  fspath (file_of self type area now)
  = (root (base_path self)
     ++ match names (base_path self) with
        | [] => ""
        | _ => String.concat "/" (names (base_path self)) ++ "/"
        end)
    ++ name type ++ "/" ++ name area ++ "/" ++ str (year now) ++ "/"
    ++ str (month now) ++ "/" ++ str (day now) ++ ".png".
Proof.
  unfold file_of. rewrite fspath_truediv_names.
  unfold folder_of, truediv. cbn [names root].
  rewrite <- !app_assoc. cbn [app].
  rewrite concat_app_cons, !append_assoc. reflexivity.
Qed.

(** X8. Two captures share a file only if they are of the same type, the
    same area and the same day: within one archive the path determines the
    type, the area, the year, the month and the day. *)
Theorem archive_path_injective (self : ImageCollection) (type type' : AllergyType)
  (area area' : Area) (now now' : datetime) :
  fspath (file_of self type area now) = fspath (file_of self type' area' now') ->
  type = type' /\ area = area'
  /\ year now = year now' /\ month now = month now' /\ day now = day now'.
Proof.
  rewrite !fspath_file_of_components. intros H.
  apply append_inv_head in H.
  apply absent_sep_inj in H as [Ht H]; try apply absent_slash_name_type.
  apply absent_sep_inj in H as [Ha H]; try apply absent_slash_name_area.
  apply absent_sep_inj in H as [Hy H]; try apply absent_slash_str.
  apply absent_sep_inj in H as [Hm H]; try apply absent_slash_str.
  apply absent_sep_inj in H as [Hd _]; try apply absent_dot_str.
  split; [exact (name_type_inj _ _ Ht)|]. split; [exact (name_area_inj _ _ Ha)|].
  split; [exact (str_inj _ _ Hy)|]. split; [exact (str_inj _ _ Hm)|].
  exact (str_inj _ _ Hd).
Qed.

Lemma archive_path_injective_witness :
  Birch = Birch /\ Germany = Germany
  /\ year march_5 = 2024 /\ month march_5 = 3 /\ day march_5 = 5.
Proof.
  apply (archive_path_injective archive Birch Birch Germany Germany march_5
           {| year := 2024; month := 3; day := 5;
              hour := 23; minute := 59; second := 59 |}).
  reflexivity.
Defined.

(** ** The label identifies the capture *)

Lemma digit_inj (n n' : Z) (k : nat) :
  digit n k = digit n' k ->
  (n / 10 ^ Z.of_nat k) mod 10 = (n' / 10 ^ Z.of_nat k) mod 10.
Proof.
  unfold digit. intros H. apply (f_equal nat_of_ascii) in H.
  pose proof (Z.mod_pos_bound (n / 10 ^ Z.of_nat k) 10 ltac:(lia)) as Hn.
  pose proof (Z.mod_pos_bound (n' / 10 ^ Z.of_nat k) 10 ltac:(lia)) as Hn'.
  rewrite !nat_ascii_embedding in H by lia. lia.
Qed.

Lemma four_digits (y : Z) :
  1 <= y <= 9999 ->
  y = 1000 * ((y / 1000) mod 10) + 100 * ((y / 100) mod 10)
      + 10 * ((y / 10) mod 10) + y mod 10.
Proof.
  intros Hy. apply Z.eqb_eq.
  apply (range_check (fun y => (y =? 1000 * ((y / 1000) mod 10)
                                     + 100 * ((y / 100) mod 10)
                                     + 10 * ((y / 10) mod 10) + y mod 10)%Z) 1 9999);
    [vm_compute; reflexivity|lia].
Qed.

Lemma two_digits (n : Z) : 1 <= n <= 31 -> n = 10 * ((n / 10) mod 10) + n mod 10.
Proof.
  intros Hn. apply Z.eqb_eq.
  apply (range_check (fun n => (n =? 10 * ((n / 10) mod 10) + n mod 10)%Z) 1 31);
    [vm_compute; reflexivity|lia].
Qed.

(** X9. The label determines the capture: two labels of dates in years of
    four digits (1000 to 9999) are equal only for the same type and the
    same day. *)
Theorem label_injective (type type' : AllergyType) (now now' : datetime) :
  valid_date now -> valid_date now' ->
  label type now = label type' now' ->
  type = type'
  /\ year now = year now' /\ month now = month now' /\ day now = day now'.
Proof.
  intros Hv Hv' H. unfold label in H.
  rewrite (strftime_is_YYYY_MM_DD _ Hv), (strftime_is_YYYY_MM_DD _ Hv') in H.
  unfold YYYY_MM_DD in H. rewrite !append_cons in H.
  injection H as Hy3 Hy2 Hy1 Hy0 Hm1 Hm0 Hd1 Hd0 Hname.
  apply digit_inj in Hy3, Hy2, Hy1, Hy0, Hm1, Hm0, Hd1, Hd0.
  change (10 ^ Z.of_nat 3) with 1000 in *. change (10 ^ Z.of_nat 2) with 100 in *.
  change (10 ^ Z.of_nat 1) with 10 in *. change (10 ^ Z.of_nat 0) with 1 in *.
  destruct Hv as (Hy & Hm & Hd), Hv' as (Hy' & Hm' & Hd').
  split; [exact (name_type_inj _ _ Hname)|].
  rewrite !Z.div_1_r in *.
  split; [rewrite (four_digits (year now)), (four_digits (year now')) by lia;
          congruence|].
  split.
  - rewrite (two_digits (month now)), (two_digits (month now')) by lia. congruence.
  - rewrite (two_digits _ Hd), (two_digits _ Hd'). congruence.
Qed.

Lemma label_injective_witness :
  Birch = Birch /\ year march_5 = 2024 /\ month march_5 = 3 /\ day march_5 = 5.
Proof.
  apply (label_injective Birch Birch march_5
           {| year := 2024; month := 3; day := 5;
              hour := 23; minute := 59; second := 59 |});
    [unfold valid_date; cbn; lia | unfold valid_date; cbn; lia | reflexivity].
Defined.

(** ** The requests of a sweep *)

Lemma value_type_inj (t t' : AllergyType) : value t = value t' -> t = t'.
Proof. destruct t, t'; cbn; intros H; first [reflexivity|discriminate H]. Qed.

Lemma value_area_inj (a a' : Area) : value a = value a' -> a = a'.
Proof. destruct a, a'; cbn; intros H; first [reflexivity|discriminate H]. Qed.

Lemma request_of_inj (p p' : Area * AllergyType) :
  request_of p = request_of p' -> p = p'.
Proof.
  destruct p as [a t], p' as [a' t']. unfold request_of. cbn [fst snd].
  intros [= Ht Ha]. rewrite (value_type_inj _ _ Ht), (value_area_inj _ _ Ha).
  reflexivity.
Qed.

Lemma elem_of_pairs (self : Collector) (area : Area) (type : AllergyType) :
  (area, type) ∈ pairs self <-> area ∈ areas self /\ type ∈ types self.
Proof.
  unfold pairs. rewrite list_elem_of_bind. split.
  - intros (a & Hin & Ha). apply list_elem_of_bind in Hin as (t & Hin & Ht).
    apply list_elem_of_singleton in Hin as [= -> ->]. split; assumption.
  - intros [Ha Ht]. exists area. split; [|exact Ha].
    apply list_elem_of_bind. exists type. split; [|exact Ht].
    apply list_elem_of_singleton. reflexivity.
Qed.

Lemma NoDup_pairs (self : Collector) :
  NoDup (areas self) -> NoDup (types self) -> NoDup (pairs self).
Proof.
  intros Ha Ht. unfold pairs. apply NoDup_bind; [| |exact Ha].
  - intros a1 a2 [a t] _ _ H1 H2.
    apply list_elem_of_bind in H1 as (t1 & H1 & _).
    apply list_elem_of_bind in H2 as (t2 & H2 & _).
    apply list_elem_of_singleton in H1, H2. congruence.
  - intros a _. apply NoDup_bind; [| |exact Ht].
    + intros t1 t2 [a' t] _ _ H1 H2.
      apply list_elem_of_singleton in H1, H2. congruence.
    + intros t _. apply NoDup_singleton.
Qed.

(** Whatever fails, the requests a run over [ps] issues are an initial part
    of the requests of [ps]; when it returns, they are all of them. *)
Lemma turns_gets (env : Env) (self : Collector) (ps : list (Area * AllergyType))
  (w : World) :
  (exists k, gets (trace (snd (for_each ps (turn env self) w)))
             = (gets (trace w) ++ take k (map request_of ps))%list)
  /\ (forall w', for_each ps (turn env self) w = (Ret tt, w') ->
        gets (trace w') = (gets (trace w) ++ map request_of ps)%list).
Proof.
  revert w. induction ps as [|[a t] ps IH]; intros w.
  { split.
    - exists 0%nat. cbn. rewrite app_nil_r. reflexivity.
    - intros w' [= <-]. cbn. rewrite app_nil_r. reflexivity. }
  cbn [for_each map]. unfold bind.
  change (turn env self (a, t)) with (guarded_step env self a t).
  pose proof (guarded_step_gets env self a t w) as Hg.
  destruct (guarded_step env self a t w) as [[[]|e] w1]; cbn [snd] in *.
  - destruct (IH w1) as [[k Hk] Hfull]. split.
    + exists (S k). rewrite Hk, Hg. cbn [take]. rewrite <- app_assoc. reflexivity.
    + intros w' Hret. rewrite (Hfull w' Hret), Hg, <- app_assoc. reflexivity.
  - split; [|discriminate]. exists 1%nat. rewrite Hg. reflexivity.
Qed.

(** X10. When no area and no type is configured twice, no request is
    sent twice within a sweep, however the sweep ends: the requests
    [_run_step] adds to the trace are pairwise distinct, each is the request
    of a configured area and a configured type, and when the sweep returns
    they are the requests of exactly the combinations of a configured area
    with a configured type.  The wire codes tell all areas and all types
    apart. *)
Theorem sweep_requests_distinct (env : Env) (self : Collector) (w0 : World) :
  NoDup (areas self) -> NoDup (types self) ->
  exists issued,
    gets (trace (snd (_run_step env self w0))) = (gets (trace w0) ++ issued)%list
    /\ NoDup issued
    /\ (forall rq, rq ∈ issued ->
          exists area type,
            area ∈ areas self /\ type ∈ types self /\ rq = request_of (area, type))
    /\ (forall d w',
          _run_step env self w0 = (Ret d, w') ->
          length issued = (length (areas self) * length (types self))%nat
          /\ forall area type,
               request_of (area, type) ∈ issued
               <-> area ∈ areas self /\ type ∈ types self).
Proof.
  intros Ha Ht.
  destruct (turns_gets env self (pairs self) (emit EvTime w0)) as [[k Hk] Hfull].
  assert (Hstart : gets (trace (emit EvTime w0)) = gets (trace w0)).
  { cbn [trace emit]. rewrite gets_app. cbn. apply app_nil_r. }
  rewrite Hstart in *.
  assert (Hall : NoDup (map request_of (pairs self))).
  { apply (NoDup_fmap_2_strong request_of).
    - intros p p' _ _. apply request_of_inj.
    - apply NoDup_pairs; assumption. }
  assert (Hmem : forall area type,
             request_of (area, type) ∈ map request_of (pairs self)
             <-> area ∈ areas self /\ type ∈ types self).
  { intros area type. rewrite <- elem_of_pairs. split.
    - intros H. apply (list_elem_of_fmap request_of) in H as (p & Hp & Hin).
      apply request_of_inj in Hp as <-. exact Hin.
    - intros H. apply (list_elem_of_fmap_2 request_of). exact H. }
  assert (Hgets : gets (trace (snd (_run_step env self w0)))
                  = gets (trace (snd (sweep env self (emit EvTime w0))))).
  { rewrite _run_step_sweep.
    destruct (sweep env self (emit EvTime w0)) as [[[]|e] w1]; [|reflexivity].
    cbn [snd trace emit]. rewrite gets_app. cbn. apply app_nil_r. }
  exists (take k (map request_of (pairs self))).
  split; [rewrite Hgets; exact Hk|].
  split; [exact (sublist_NoDup _ _ Hall (sublist_take _ _))|].
  split.
  - intros rq Hin.
    pose proof (elem_of_sublist _ _ _ Hin (sublist_take _ k)) as Hin'.
    apply (list_elem_of_fmap request_of) in Hin' as ([area type] & -> & Hp).
    apply elem_of_pairs in Hp as [Harea Htype].
    exists area, type. split; [exact Harea|]. split; [exact Htype|reflexivity].
  - intros d w' Hret.
    assert (Hsweep : exists w1, sweep env self (emit EvTime w0) = (Ret tt, w1)).
    { rewrite _run_step_sweep in Hret.
      destruct (sweep env self (emit EvTime w0)) as [[[]|e] w1]; [|discriminate].
      exists w1. reflexivity. }
    destruct Hsweep as (w1 & Hsweep).
    assert (Heq : take k (map request_of (pairs self)) = map request_of (pairs self)).
    { apply (app_inv_head (gets (trace w0))). rewrite <- Hk.
      unfold sweep in Hsweep. rewrite Hsweep. cbn [snd]. apply (Hfull w1 Hsweep). }
    rewrite Heq. split; [|exact Hmem].
    rewrite length_map. apply length_pairs.
Qed.

Lemma NoDup_members_Area : NoDup (members (E := Area)).
Proof.
  cbn. repeat (constructor;
               [rewrite ?not_elem_of_cons; repeat split;
                first [discriminate|apply not_elem_of_nil]|]).
  constructor.
Qed.

Lemma NoDup_members_AllergyType : NoDup (members (E := AllergyType)).
Proof.
  cbn. repeat (constructor;
               [rewrite ?not_elem_of_cons; repeat split;
                first [discriminate|apply not_elem_of_nil]|]).
  constructor.
Qed.

Lemma sweep_requests_distinct_witness :
  exists issued,
    gets (trace (snd (_run_step germany_down (shipped (base_path archive)) empty_world)))
    = (gets (trace empty_world) ++ issued)%list
    /\ NoDup issued
    /\ (forall rq, rq ∈ issued ->
          exists area type,
            area ∈ members (E := Area) /\ type ∈ members (E := AllergyType)
            /\ rq = request_of (area, type))
    /\ (forall d w',
          _run_step germany_down (shipped (base_path archive)) empty_world = (Ret d, w') ->
          length issued = (13 * 7)%nat
          /\ forall area type,
               request_of (area, type) ∈ issued
               <-> area ∈ members (E := Area) /\ type ∈ members (E := AllergyType)).
Proof.
  apply (sweep_requests_distinct germany_down (shipped (base_path archive)) empty_world
           NoDup_members_Area NoDup_members_AllergyType).
Defined.

(** ** Start-up *)

Lemma members_Area_complete (area : Area) : area ∈ members (E := Area).
Proof. destruct area; cbn; rewrite !elem_of_cons; tauto. Qed.

Lemma members_AllergyType_complete (type : AllergyType) :
  type ∈ members (E := AllergyType).
Proof. destruct type; cbn; rewrite !elem_of_cons; tauto. Qed.

(** X11. Start-up is the one place where a failure is fatal.  If the
    archive folder cannot be created, the program is left by that exception,
    whatever its class, before "Started" is logged and before any request;
    the same exception raised by the [mkdir] of a store inside the loop is
    caught by the guard of its pair.  Once the folder is there the program
    is [run] on every combination of the 13 areas with the 7 types, 91
    pairs, each once. *)
Theorem startup_is_unguarded (env : Env) (parse : string -> Path) (n : nat) (w : World) :
  (forall e,
     Path_mkdir env w (parse "keker") = Some e ->
     main env parse n w = Exited e (emit (EvMkdir (fspath (parse "keker"))) w))
  /\ (Path_mkdir env w (parse "keker") = None ->
      main env parse n w
      = run env (shipped (parse "keker")) n (emit (EvMkdir (fspath (parse "keker"))) w))
  /\ (forall self type area w0 r e,
        http_get env w0 (fst (request_of (area, type))) (snd (request_of (area, type)))
        = inr r ->
        let w1 := emit EvNow (emit (EvGet (fst (request_of (area, type)))
                                      (snd (request_of (area, type)))) w0) in
        let folder := folder_of (image_collection self) type area
                        (datetime_now env
                           (emit (EvGet (fst (request_of (area, type)))
                                    (snd (request_of (area, type)))) w0)) in
        Path_mkdir env w1 folder = Some e ->
        isinstance_Exception e = true ->
        guarded_step env self area type w0
        = sleep env (inject_Z 5)
            (emit (EvLog WARNING (pair_warning type area e))
               (emit (EvMkdir (fspath folder)) w1)))
  /\ (forall area type, (area, type) ∈ pairs (shipped (parse "keker")))
  /\ NoDup (pairs (shipped (parse "keker")))
  /\ length (pairs (shipped (parse "keker"))) = 91%nat.
Proof.
  split; [|split; [|split; [|split; [|split]]]].
  - intros e He. unfold main, Collector_init, ImageCollection_init, bind, mkdir, ret.
    cbn [base_path]. rewrite He. reflexivity.
  - intros He. unfold main, Collector_init, ImageCollection_init, bind, mkdir, ret.
    cbn [base_path]. rewrite He. reflexivity.
  - intros self type area w0 r e Hhttp w1 folder Hmk He.
    apply guarded_step_caught; [|exact He]. unfold step.
    pose proof (get_data_transport env type area 0 "en" w0 ltac:(lia)) as Hget.
    cbv zeta in Hget. cbn [request_of fst snd] in Hhttp. rewrite Hhttp in Hget.
    rewrite (bind_Ret _ _ _ _ _ Hget).
    unfold save_image, bind, now_, mkdir.
    subst w1 folder. cbn [request_of fst snd] in Hmk. rewrite Hmk. reflexivity.
  - intros area type. apply elem_of_pairs.
    split; [apply members_Area_complete|apply members_AllergyType_complete].
  - apply NoDup_pairs; [apply NoDup_members_Area|apply NoDup_members_AllergyType].
  - reflexivity.
Qed.

Lemma startup_is_unguarded_witness :
  main read_only one_name 3 empty_world
  = Exited (Exn OSError "Read-only file system")
      {| fs := ∅; trace := [EvMkdir "keker"] |}
  /\ fst (guarded_step read_only two_pairs Germany Birch empty_world) = Ret tt.
Proof.
  split.
  - apply (proj1 (startup_is_unguarded read_only one_name 3 empty_world)). reflexivity.
  - rewrite (proj1 (proj2 (proj2 (startup_is_unguarded read_only one_name 3 empty_world)))
               two_pairs Birch Germany empty_world
               {| status_code := 200; content := sample_body |}
               (Exn OSError "Read-only file system"));
      reflexivity.
Defined.

(** ** Nothing to sweep *)

(** X12. A collector configured with no area, or with no type, sweeps
    nothing: the sweep reads the clock twice and returns their difference
    with no request, no pause, no log line and no file touched, and the
    turn of the loop goes straight to the line of success and the daily
    pause. *)
Theorem empty_sweep (env : Env) (self : Collector) (w : World) :
  areas self = [] \/ types self = [] ->
  _run_step env self w
  = (Ret (time_time env (emit EvTime w) - time_time env w)%Q,
     emit EvTime (emit EvTime w))
  /\ run_iteration env self w
     = sleep env (daily_delay (time_time env (emit EvTime w) - time_time env w))
         (emit (EvLog INFO "Successfully fetched todays data")
            (emit EvTime (emit EvTime w))).
Proof.
  intros Hempty.
  assert (Hs : _run_step env self w
               = (Ret (time_time env (emit EvTime w) - time_time env w)%Q,
                  emit EvTime (emit EvTime w))).
  { rewrite _run_step_sweep.
    assert (Hp : pairs self = []).
    { unfold pairs. destruct Hempty as [-> | ->]; [reflexivity|].
      induction (areas self) as [|a l IH]; [reflexivity|].
      rewrite bind_cons, IH. reflexivity. }
    unfold sweep. rewrite Hp. reflexivity. }
  split; [exact Hs|]. apply run_iteration_after_sweep. exact Hs.
Qed.

Lemma empty_sweep_witness :
  _run_step calm no_area empty_world
  = (Ret (inject_Z 1 - inject_Z 0)%Q, {| fs := ∅; trace := [EvTime; EvTime] |}).
Proof.
  apply (empty_sweep calm no_area empty_world). left. reflexivity.
Defined.
